(** * aicook: the incremental synchronisation engine

    A shallow embedding of [Handler.py], [embedding_pipeline.py] and
    [FileHandler.py]: the watcher callbacks that keep the table [files] of
    the SQLite change-record store and the Chroma collection [local_rag]
    in step with a directory tree.

    Layout: the MD5 digest used by [compute_file_hash]; exceptions and the
    state monad of the callbacks; the file system snapshot; the text
    extraction of [FileHandler.py]; the vector store of
    [embedding_pipeline.py]; the record store and the event handler of
    [Handler.py]; then the theorems.

    One event sees one snapshot of the file system.  What a third-party
    parser, the embedding service or the collection answers is a field of
    the world, so that every theorem holds for all their behaviours,
    failures included.  Console and log output is left out, and so are
    failures of SQLite itself. *)

From Stdlib Require Import ZArith List String Ascii Strings.Byte Bool Lia.
From Stdlib Require Import Floats.SpecFloat.
From stdpp Require Import gmap strings list fin_maps.
From Equations Require Import Equations.

(** ** hashlib.md5 (RFC 1321)

    32-bit words are [Z] reduced modulo [2^32]; a message is a list of
    bytes. *)

Module Md5.

Local Open Scope Z_scope.

Definition mask32 : Z := 0xFFFFFFFF.
Definition w32 (x : Z) : Z := Z.land x mask32.
Definition add32 (x y : Z) : Z := w32 (x + y).
Definition not32 (x : Z) : Z := Z.lxor x mask32.
Definition rotl32 (x s : Z) : Z :=
  w32 (Z.lor (Z.shiftl x s) (Z.shiftr x (32 - s))).

Definition K : list Z :=
  [ 0xd76aa478; 0xe8c7b756; 0x242070db; 0xc1bdceee;
    0xf57c0faf; 0x4787c62a; 0xa8304613; 0xfd469501;
    0x698098d8; 0x8b44f7af; 0xffff5bb1; 0x895cd7be;
    0x6b901122; 0xfd987193; 0xa679438e; 0x49b40821;
    0xf61e2562; 0xc040b340; 0x265e5a51; 0xe9b6c7aa;
    0xd62f105d; 0x02441453; 0xd8a1e681; 0xe7d3fbc8;
    0x21e1cde6; 0xc33707d6; 0xf4d50d87; 0x455a14ed;
    0xa9e3e905; 0xfcefa3f8; 0x676f02d9; 0x8d2a4c8a;
    0xfffa3942; 0x8771f681; 0x6d9d6122; 0xfde5380c;
    0xa4beea44; 0x4bdecfa9; 0xf6bb4b60; 0xbebfbc70;
    0x289b7ec6; 0xeaa127fa; 0xd4ef3085; 0x04881d05;
    0xd9d4d039; 0xe6db99e5; 0x1fa27cf8; 0xc4ac5665;
    0xf4292244; 0x432aff97; 0xab9423a7; 0xfc93a039;
    0x655b59c3; 0x8f0ccc92; 0xffeff47d; 0x85845dd1;
    0x6fa87e4f; 0xfe2ce6e0; 0xa3014314; 0x4e0811a1;
    0xf7537e82; 0xbd3af235; 0x2ad7d2bb; 0xeb86d391 ].

Definition S : list Z :=
  [ 7; 12; 17; 22; 7; 12; 17; 22; 7; 12; 17; 22; 7; 12; 17; 22;
    5;  9; 14; 20; 5;  9; 14; 20; 5;  9; 14; 20; 5;  9; 14; 20;
    4; 11; 16; 23; 4; 11; 16; 23; 4; 11; 16; 23; 4; 11; 16; 23;
    6; 10; 15; 21; 6; 10; 15; 21; 6; 10; 15; 21; 6; 10; 15; 21 ].

(** The four chaining words. *)
Record digest_state := MkState { sA : Z; sB : Z; sC : Z; sD : Z }.

Definition init_state : digest_state :=
  MkState 0x67452301 0xefcdab89 0x98badcfe 0x10325476.

(** Round function and message index of step [i] (0..63). *)
Definition round_fun (i : nat) (b c d : Z) : Z :=
  if (i <? 16)%nat then Z.lor (Z.land b c) (Z.land (not32 b) d)
  else if (i <? 32)%nat then Z.lor (Z.land d b) (Z.land (not32 d) c)
  else if (i <? 48)%nat then Z.lxor (Z.lxor b c) d
  else Z.lxor c (Z.lor b (not32 d)).

Definition msg_index (i : nat) : nat :=
  if (i <? 16)%nat then i
  else if (i <? 32)%nat then (5 * i + 1) mod 16
  else if (i <? 48)%nat then (3 * i + 5) mod 16
  else (7 * i) mod 16.

Definition step (m : list Z) (st : digest_state) (i : nat) : digest_state :=
  let f := round_fun i (sB st) (sC st) (sD st) in
  let f' := add32 (add32 (add32 f (sA st)) (nth i K 0)) (nth (msg_index i) m 0) in
  MkState (sD st) (add32 (sB st) (rotl32 f' (nth i S 0))) (sB st) (sC st).

(** One 512-bit block [m] (sixteen little-endian words). *)
Definition compress (st : digest_state) (m : list Z) : digest_state :=
  let r := fold_left (step m) (seq 0 64) st in
  MkState (add32 (sA st) (sA r)) (add32 (sB st) (sB r))
          (add32 (sC st) (sC r)) (add32 (sD st) (sD r)).

Definition byte_val (b : byte) : Z := Z.of_N (Byte.to_N b).

Fixpoint le_words (bs : list Z) : list Z :=
  match bs with
  | b0 :: b1 :: b2 :: b3 :: rest =>
      (b0 + 256 * b1 + 65536 * b2 + 16777216 * b3) :: le_words rest
  | _ => []
  end.

Definition le_bytes (n : nat) (x : Z) : list Z :=
  map (fun k => Z.land (Z.shiftr x (8 * Z.of_nat k)) 0xFF) (seq 0 n).

(** Padding: a one bit, zeros up to 56 modulo 64, the bit length on 64
    bits. *)
Definition pad (msg : list Z) : list Z :=
  let len := Z.of_nat (length msg) in
  let zeros := Z.to_nat ((55 - len) mod 64) in
  msg ++ 0x80 :: repeat 0 zeros ++ le_bytes 8 (Z.land (8 * len) 0xFFFFFFFFFFFFFFFF).

Fixpoint blocks (n : nat) (st : digest_state) (bs : list Z) : digest_state :=
  match n with
  | O => st
  | Datatypes.S n' => blocks n' (compress st (le_words (firstn 64 bs))) (skipn 64 bs)
  end.

Definition digest (msg : list byte) : list Z :=
  let p := pad (map byte_val msg) in
  let st := blocks (length p / 64) init_state p in
  le_bytes 4 (sA st) ++ le_bytes 4 (sB st) ++ le_bytes 4 (sC st) ++ le_bytes 4 (sD st).

Definition hex_digit (x : Z) : ascii :=
  nth (Z.to_nat x)
      ["0"; "1"; "2"; "3"; "4"; "5"; "6"; "7";
       "8"; "9"; "a"; "b"; "c"; "d"; "e"; "f"]%char "0"%char.

Fixpoint hex (bs : list Z) : string :=
  match bs with
  | [] => EmptyString
  | b :: rest => String (hex_digit (b / 16)) (String (hex_digit (b mod 16)) (hex rest))
  end.

(** [hashlib.md5(msg).hexdigest()] *)
Definition hexdigest (msg : list byte) : string := hex (digest msg).

End Md5.

(** ** Python values and exceptions *)

(** A Python [float] (the modification time, a component of an embedding)
    is carried as its IEEE-754 bit pattern: the code stores and forwards
    these values and never computes with them. *)
Definition float64 := Z.

(** The collection keeps its vectors in single precision.  [float32 x] is
    the double that comes back for the double [x]: [x] rounded to the
    nearest single, ties to even, with overflow to infinity and
    underflow to zero; a NaN keeps its sign and the payload bits that a
    single has room for, and comes back quiet. *)
Definition float32 (x : float64) : float64 :=
  let sign := Z.testbit x 63 in
  let signbit := if sign then 0x8000000000000000%Z else 0%Z in
  let ex := Z.land (Z.shiftr x 52) 0x7FF in
  let mant := Z.land x 0xFFFFFFFFFFFFF in
  if (ex =? 0x7FF)%Z then
    (if (mant =? 0)%Z then (signbit + 0x7FF0000000000000)%Z
     else (signbit + 0x7FF0000000000000
             + Z.lor 0x8000000000000 (Z.shiftl (Z.shiftr mant 29) 29))%Z)
  else
    let '(m, e) :=
      if (ex =? 0)%Z then (mant, (-1074)%Z)
      else ((mant + 0x10000000000000)%Z, (ex - 1075)%Z) in
    match m with
    | Zpos p =>
        match binary_round 24 128 sign p e with
        | S754_zero _ => signbit
        | S754_infinity _ => (signbit + 0x7FF0000000000000)%Z
        | S754_nan => 0x7FF8000000000000%Z
        | S754_finite _ m' e' =>
            let k := Zpos (digits2_pos m') in
            (signbit + (e' + k - 1 + 1023) * 0x10000000000000
               + (Zpos m' * 2 ^ (53 - k) - 0x10000000000000))%Z
        end
    | _ => signbit
    end.

(** The exception classes the code tells apart, and the rest. *)
Inductive exn :=
| UnicodeDecodeError
| JSONDecodeError
| NameError (name : string)
| OSError
| OtherError.

Inductive result (A : Type) :=
| Ok (a : A)
| Raise (e : exn).
Arguments Ok {A} a.
Arguments Raise {A} e.

Definition rbind {A B} (m : result A) (k : A -> result B) : result B :=
  match m with
  | Ok a => k a
  | Raise e => Raise e
  end.

(** [try: m  except Exception as e: h e] *)
Definition try_except {A} (m : result A) (h : exn -> result A) : result A :=
  match m with
  | Ok a => Ok a
  | Raise e => h e
  end.

Declare Scope result_scope.
Delimit Scope result_scope with result.
Notation "x <- m ;; k" := (rbind m (fun x => k))
  (at level 100, m at next level, right associativity) : result_scope.
Notation "m ;;; k" := (rbind m (fun _ => k))
  (at level 100, right associativity) : result_scope.

(** ** Strings *)

Definition nl : string := String (ascii_of_nat 10) EmptyString.

Definition lower_ascii (c : ascii) : ascii :=
  let n := nat_of_ascii c in
  if (65 <=? n)%nat && (n <=? 90)%nat then ascii_of_nat (n + 32) else c.

(** [s.lower()] on strings of ASCII letters. *)
Fixpoint lower (s : string) : string :=
  match s with
  | EmptyString => EmptyString
  | String c r => String (lower_ascii c) (lower r)
  end.

(** [s.rfind(c)]: index of the last [c] in [s], counting from [pos]. *)
Fixpoint rfind (c : ascii) (s : string) (pos : nat) : option nat :=
  match s with
  | EmptyString => None
  | String a r =>
      match rfind c r (S pos) with
      | Some j => Some j
      | None => if Ascii.eqb a c then Some pos else None
      end
  end.

Definition drop_string (n : nat) (s : string) : string :=
  substring n (String.length s - n) s.

(** [os.path.basename(p)] and [Path(p).name] *)
Definition basename (p : string) : string :=
  match rfind "/" p 0 with
  | Some i => drop_string (S i) p
  | None => p
  end.

(** [Path(p).suffix] *)
Definition suffix (p : string) : string :=
  let name := basename p in
  match rfind "." name 0 with
  | Some i =>
      if (0 <? i)%nat && (i <? String.length name - 1)%nat
      then drop_string i name else EmptyString
  | None => EmptyString
  end.

Definition startswith (s pre : string) : bool := String.prefix pre s.

Definition endswith (s suf : string) : bool :=
  (String.length suf <=? String.length s)%nat &&
  String.eqb (drop_string (String.length s - String.length suf) s) suf.

(** ** The file system, as one event sees it *)

Record file := {
  st_size : Z;               (* [stat().st_size] *)
  st_mtime : float64;        (* [os.path.getmtime] *)
  data : list byte;          (* the bytes a binary read returns *)
  can_open : bool;           (* [open(path, 'rb')] succeeds *)
  read_fault : option nat    (* the read call (from 0) that fails, if any *)
}.

Inductive node :=
| Missing
| Directory (mtime : float64)
| RegularFile (f : file).

(** ** Third-party parsers and services

    What each library call returns for a path: the value the try body
    computes from it, or the exception it raises. *)
Record library := {
  has_openpyxl : bool;
  has_beautifulsoup : bool;
  has_pptx : bool;
  (* open 'rb', read(10000), chardet.detect(...).get('encoding') *)
  chardet_detect : string -> result (option string);
  (* open(path, 'r', encoding=enc).read() *)
  open_read : string -> string -> result string;
  (* open(path, 'rb').read().decode('utf-8', errors='ignore') *)
  read_decode_ignore : string -> result string;
  docx2txt_process : string -> result string;
  (* page.get_text() of every page of fitz.open(path) *)
  fitz_pages : string -> result (list string);
  (* elem.text of the elements of content.xml that have one *)
  odt_texts : string -> result (list string);
  (* json.dumps(json.load(f), indent=2, ensure_ascii=False) *)
  json_load_dumps : string -> result string;
  (* the rows of csv.reader(f, delimiter=d), f opened with encoding enc *)
  csv_reader : string -> string -> ascii -> result (list (list string));
  (* BeautifulSoup(f.read(), parser).get_text(separator=' ', strip=True) *)
  soup_get_text : string -> string -> string -> result string;
  (* the joined sheet texts of openpyxl.load_workbook(path) *)
  openpyxl_text : string -> result string;
  (* the joined slide texts of Presentation(path) *)
  pptx_text : string -> result string;
  zip_namelist : string -> result (list string);
  tar_getnames : string -> result (list string);
  (* pytesseract.image_to_string(Image.open(path)) *)
  image_to_string : string -> result string;
  (* mimetypes.guess_type(path)[0] *)
  guess_type : string -> option string
}.

Record world := {
  fs : string -> node;
  lib : library;
  (* genai.Client().models.embed_content(...).embeddings[0].values *)
  embed_content : string -> result (list float64);
  (* collection.add(ids=[id], ...) raises *)
  add_fails : string -> bool;
  (* collection.delete(ids=[id]) raises *)
  delete_fails : string -> bool
}.

(** ** FileHandler.py *)

Local Open Scope result_scope.
Local Open Scope string_scope.

(** The names bound at module level in FileHandler.py: its imports
    ([json], [csv], [zipfile], [tarfile], [logging], [Path], the typing
    names, [chardet]) and its own definitions.  The module refers to
    [os], [docx2txt], [fitz], [pytesseract], [Image] and [mimetypes]
    without importing them (embedding_pipeline.py imports them, but a
    function looks its globals up in the module that defines it). *)
Definition module_globals : list string :=
  [ "json"; "csv"; "zipfile"; "tarfile"; "logging"; "Path";
    "Optional"; "Dict"; "Callable"; "chardet";
    "logger"; "FileProcessor"; "open_file" ].

(** Evaluating a global name. *)
Definition global_name (name : string) : result unit :=
  if existsb (String.eqb name) module_globals then Ok tt
  else Raise (NameError name).

Inductive handler :=
| h_read_text_file | h_read_docx | h_read_pdf | h_read_odt
| h_read_json | h_read_csv | h_read_tsv | h_read_xml | h_read_html
| h_read_archive | h_read_excel | h_read_powerpoint | h_read_image.

(** [FileProcessor.handlers] *)
Definition handlers_table : list (string * handler) :=
  [ (".txt", h_read_text_file); (".md", h_read_text_file);
    (".rst", h_read_text_file); (".log", h_read_text_file);
    (".rtf", h_read_text_file);
    (".docx", h_read_docx); (".pdf", h_read_pdf); (".odt", h_read_odt);
    (".json", h_read_json); (".csv", h_read_csv); (".tsv", h_read_tsv);
    (".xml", h_read_xml); (".html", h_read_html); (".htm", h_read_html);
    (".py", h_read_text_file); (".js", h_read_text_file);
    (".java", h_read_text_file); (".cpp", h_read_text_file);
    (".c", h_read_text_file); (".h", h_read_text_file);
    (".css", h_read_text_file); (".sql", h_read_text_file);
    (".sh", h_read_text_file); (".yml", h_read_text_file);
    (".yaml", h_read_text_file);
    (".zip", h_read_archive); (".tar", h_read_archive);
    (".gz", h_read_archive);
    (".xlsx", h_read_excel); (".xls", h_read_excel);
    (".pptx", h_read_powerpoint);
    (".jpg", h_read_image); (".jpeg", h_read_image);
    (".png", h_read_image); (".bmp", h_read_image);
    (".tiff", h_read_image); (".gif", h_read_image) ].

Fixpoint assoc {A} (k : string) (l : list (string * A)) : option A :=
  match l with
  | [] => None
  | (k', v) :: rest => if String.eqb k k' then Some v else assoc k rest
  end.

Definition handlers (ext : string) : option handler := assoc ext handlers_table.

Section FileProcessor.

Variable w : world.

Definition _detect_encoding (file_path : string) : string :=
  match chardet_detect (lib w) file_path with
  | Ok (Some enc) => if String.eqb enc "" then "utf-8" else enc
  | Ok None => "utf-8"
  | Raise _ => "utf-8"
  end.

(** The [for enc in encodings_to_try] loop and the binary fallback
    after it. *)
Fixpoint try_encodings (file_path : string) (encodings_to_try : list string)
  : result string :=
  match encodings_to_try with
  | [] => read_decode_ignore (lib w) file_path
  | enc :: rest =>
      match open_read (lib w) file_path enc with
      | Ok text => Ok text
      | Raise UnicodeDecodeError => try_encodings file_path rest
      | Raise e => Raise e
      end
  end.

Definition _read_text_file (file_path : string) : result string :=
  let encoding := _detect_encoding file_path in
  try_encodings file_path [encoding; "utf-8"; "latin-1"; "cp1252"].

Definition _read_docx (file_path : string) : result string :=
  global_name "docx2txt" ;;;
  docx2txt_process (lib w) file_path.

Definition _read_pdf (file_path : string) : result string :=
  global_name "fitz" ;;;
  text_parts <- fitz_pages (lib w) file_path ;;
  Ok (String.concat nl text_parts).

(** [os.path.basename(file_path)], with the lookup of [os]. *)
Definition os_path_basename (file_path : string) : result string :=
  global_name "os" ;;; Ok (basename file_path).

Definition _read_odt (file_path : string) : result string :=
  try_except
    (text_parts <- odt_texts (lib w) file_path ;;
     Ok (String.concat " " text_parts))
    (fun _ => name <- os_path_basename file_path ;;
              Ok ("[ODT FILE] " ++ name)).

Definition _read_json (file_path : string) : result string :=
  match json_load_dumps (lib w) file_path with
  | Raise JSONDecodeError => _read_text_file file_path
  | r => r
  end.

(** The [for i, row in enumerate(reader)] loop of the CSV and TSV
    readers. *)
Fixpoint csv_rows (i : nat) (reader : list (list string)) (rows : list string)
  : list string :=
  match reader with
  | [] => rows
  | row :: rest =>
      if (1000 <? i)%nat then rows ++ ["... (truncated)"]
      else csv_rows (S i) rest (rows ++ [String.concat " | " row])
  end.

Definition read_delimited (delimiter : ascii) (file_path : string) : result string :=
  try_except
    (reader <- csv_reader (lib w) file_path (_detect_encoding file_path) delimiter ;;
     Ok (String.concat nl (csv_rows 0 reader [])))
    (fun _ => _read_text_file file_path).

Definition _read_csv : string -> result string := read_delimited ",".
Definition _read_tsv : string -> result string := read_delimited (ascii_of_nat 9).

Definition read_markup (parser : string) (file_path : string) : result string :=
  if has_beautifulsoup (lib w) then
    match soup_get_text (lib w) file_path (_detect_encoding file_path) parser with
    | Ok text => Ok text
    | Raise _ => _read_text_file file_path
    end
  else _read_text_file file_path.

Definition _read_xml : string -> result string := read_markup "xml".
Definition _read_html : string -> result string := read_markup "html.parser".

Definition _read_excel (file_path : string) : result string :=
  if negb (has_openpyxl (lib w)) then
    name <- os_path_basename file_path ;;
    Ok ("[EXCEL FILE] " ++ name ++ " (openpyxl not available)")
  else
    try_except (openpyxl_text (lib w) file_path)
      (fun _ => name <- os_path_basename file_path ;;
                Ok ("[EXCEL FILE] " ++ name)).

Definition _read_powerpoint (file_path : string) : result string :=
  if negb (has_pptx (lib w)) then
    name <- os_path_basename file_path ;;
    Ok ("[POWERPOINT FILE] " ++ name ++ " (python-pptx not available)")
  else
    try_except (pptx_text (lib w) file_path)
      (fun _ => name <- os_path_basename file_path ;;
                Ok ("[POWERPOINT FILE] " ++ name)).

Definition _read_archive (file_path : string) : result string :=
  try_except
    (if endswith file_path ".zip" then
       file_list <- zip_namelist (lib w) file_path ;;
       name <- os_path_basename file_path ;;
       Ok ("[ARCHIVE FILE] " ++ name ++ nl ++ "Contents:" ++ nl
             ++ String.concat nl (firstn 100 file_list))
     else if endswith file_path ".tar" || endswith file_path ".tar.gz"
             || endswith file_path ".tgz" then
       file_list <- tar_getnames (lib w) file_path ;;
       name <- os_path_basename file_path ;;
       Ok ("[ARCHIVE FILE] " ++ name ++ nl ++ "Contents:" ++ nl
             ++ String.concat nl (firstn 100 file_list))
     else
       name <- os_path_basename file_path ;;
       Ok ("[ARCHIVE FILE] " ++ name))
    (fun _ => name <- os_path_basename file_path ;;
              Ok ("[ARCHIVE FILE] " ++ name)).

Definition _read_image (file_path : string) : result string :=
  try_except
    (global_name "pytesseract" ;;;
     global_name "Image" ;;;
     image_to_string (lib w) file_path)
    (fun _ => name <- os_path_basename file_path ;;
              Ok ("[IMAGE FILE] " ++ name)).

(** [file_processor.handlers[file_ext](file_path)] *)
Definition call_handler (h : handler) (file_path : string) : result string :=
  match h with
  | h_read_text_file => _read_text_file file_path
  | h_read_docx => _read_docx file_path
  | h_read_pdf => _read_pdf file_path
  | h_read_odt => _read_odt file_path
  | h_read_json => _read_json file_path
  | h_read_csv => _read_csv file_path
  | h_read_tsv => _read_tsv file_path
  | h_read_xml => _read_xml file_path
  | h_read_html => _read_html file_path
  | h_read_archive => _read_archive file_path
  | h_read_excel => _read_excel file_path
  | h_read_powerpoint => _read_powerpoint file_path
  | h_read_image => _read_image file_path
  end.

(** The body of the [try] of [open_file]: dispatch on the extension, then
    on the MIME type, then read as text. *)
Definition dispatch (file_path : string) : result string :=
  let file_ext := lower (suffix file_path) in
  match handlers file_ext with
  | Some h => call_handler h file_path
  | None =>
      global_name "mimetypes" ;;;
      match guess_type (lib w) file_path with
      | Some mime_type =>
          if startswith mime_type "text/" then _read_text_file file_path
          else if startswith mime_type "image/" then _read_image file_path
          else if startswith mime_type "audio/" then
            Ok ("[AUDIO FILE] " ++ basename file_path)
          else if startswith mime_type "video/" then
            Ok ("[VIDEO FILE] " ++ basename file_path)
          else _read_text_file file_path
      | None => _read_text_file file_path
      end
  end.

(** 50MB *)
Definition max_size : Z := 50 * 1024 * 1024.

(** [open_file]: [Ok None] is Python's [None], [Ok (Some text)] a string,
    [Raise e] an exception that leaves the function. *)
Definition open_file (file_path : string) : result (option string) :=
  match fs w file_path with
  | Missing => Ok None
  | Directory _ => Ok None
  | RegularFile f =>
      let file_size := st_size f in
      if (file_size >? max_size)%Z then Ok None
      else if (file_size =? 0)%Z then Ok (Some "")
      else
        try_except
          (text <- dispatch file_path ;; Ok (Some text))
          (fun _ => Ok None)
  end.

End FileProcessor.

(** ** The two stores and the callbacks' monad *)

(** An entry of the Chroma collection [local_rag]. *)
Record entry := {
  document : string;
  metadata_source : string;
  embedding_values : list float64
}.

(** Calls sent to the embedding service and to the collection. *)
Inductive call :=
| EmbedContent (text : string)
| CollectionAdd (id : string)
| CollectionDelete (id : string).

Record state := {
  files : gmap string (float64 * string);   (* table [files] of index.db *)
  collection : gmap string entry;           (* collection [local_rag] *)
  calls : list call                         (* oldest first *)
}.

(** A computation runs from a state to an outcome and the state it
    leaves; what was written before an exception stays written. *)
Definition M (A : Type) : Type := state -> result A * state.

Definition ret {A} (a : A) : M A := fun s => (Ok a, s).

Definition bind {A B} (m : M A) (k : A -> M B) : M B :=
  fun s => match m s with
           | (Ok a, s') => k a s'
           | (Raise e, s') => (Raise e, s')
           end.

Definition lift {A} (r : result A) : M A := fun s => (r, s).

(** [try: m  except Exception as e: h e] *)
Definition catch {A} (m : M A) (h : exn -> M A) : M A :=
  fun s => match m s with
           | (Ok a, s') => (Ok a, s')
           | (Raise e, s') => h e s'
           end.

Declare Scope M_scope.
Delimit Scope M_scope with M.
Notation "x <- m ;; k" := (bind m (fun x => k))
  (at level 100, m at next level, right associativity) : M_scope.
Notation "m ;;; k" := (bind m (fun _ => k))
  (at level 100, right associativity) : M_scope.

Definition record_call (c : call) : M unit :=
  fun s => (Ok tt, {| files := files s; collection := collection s;
                      calls := calls s ++ [c] |}).

(** ** embedding_pipeline.py *)

(** What the collection holds after an add of [e] under [id]: an id that
    is already there keeps its entry. *)
Definition add_entry (id : string) (e : entry) (c : gmap string entry)
  : gmap string entry :=
  match c !! id with
  | Some _ => c
  | None => <[id := e]> c
  end.

Section Pipeline.

Variable w : world.

Local Open Scope M_scope.

Definition embedding (text : string) : M (option (list float64)) :=
  catch
    (record_call (EmbedContent text) ;;;
     values <- lift (embed_content w text) ;;
     ret (Some values))
    (fun _ => ret None).

(** [collection.add(documents=[text], metadatas=[{"source": filepath}],
    embeddings=[embedded], ids=[filepath])]: the entry is stored with its
    vector in single precision; an add for an id that the collection
    already holds is ignored without an error. *)
Definition collection_add (filepath text : string) (embedded : list float64)
  : M unit :=
  record_call (CollectionAdd filepath) ;;;
  if add_fails w filepath then lift (Raise OtherError)
  else fun s =>
    (Ok tt, {| files := files s;
               collection :=
                 add_entry filepath
                   {| document := text; metadata_source := filepath;
                      embedding_values := map float32 embedded |}
                   (collection s);
               calls := calls s |}).

(** [collection.delete(ids=[filepath])] *)
Definition collection_delete (filepath : string) : M unit :=
  record_call (CollectionDelete filepath) ;;;
  if delete_fails w filepath then lift (Raise OtherError)
  else fun s =>
    (Ok tt, {| files := files s;
               collection := delete filepath (collection s);
               calls := calls s |}).

(** Python truth value of [text] ([None] and [""] are false). *)
Definition truthy_text (text : option string) : option string :=
  match text with
  | Some t => if String.eqb t "" then None else Some t
  | None => None
  end.

Definition add_to_vector_db (filepath : string) : M bool :=
  text <- lift (open_file w filepath) ;;
  match truthy_text text with
  | None => ret false
  | Some text =>
      embedded <- embedding text ;;
      match embedded with
      | Some (v :: vs) =>
          collection_add filepath text (v :: vs) ;;;
          ret true
      | _ => ret false
      end
  end.

Definition delete_from_vector_db (filepath : string) : M unit :=
  catch (collection_delete filepath) (fun _ => ret tt).

End Pipeline.

(** ** Handler.py *)

(** A [hashlib.md5()] object: the bytes fed to it so far. *)
Definition hasher := list byte.
Definition md5_new : hasher := [].
Definition hasher_update (h : hasher) (chunk : list byte) : hasher :=
  (h ++ chunk)%list.
Definition hasher_hexdigest (h : hasher) : string := Md5.hexdigest h.

(** The size of one [f.read(8192)]. *)
Definition chunk_size : nat := Z.to_nat 8192.

(** Matching on a value while keeping the equation. *)
Definition inspect {A : Type} (x : A) : { y : A | x = y } := exist _ x eq_refl.

(** [while chunk := f.read(size): hasher.update(chunk)] on the bytes
    [rest] still unread; [k] counts the read calls made.  A read returns
    at most [size] bytes; the empty chunk (end of file) ends the loop. *)
Equations? read_loop (size : nat) (fault : option nat) (k : nat)
    (rest : list byte) (h : hasher) : result hasher by wf (length rest) lt :=
  read_loop size fault k rest h with decide (fault = Some k) => {
    | left _ => Raise OSError
    | right _ with inspect (firstn size rest) => {
        | exist _ [] _ => Ok h
        | exist _ (b :: c) E =>
            read_loop size fault (S k) (skipn size rest)
                      (hasher_update h (b :: c)) } }.
Proof.
  rewrite length_skipn.
  destruct size; [discriminate|]. destruct rest; [discriminate|].
  cbn [length]. lia.
Qed.

Section Handler.

Variable w : world.

(** [open(path, 'rb')] followed by the read loop. *)
Definition hash_stream (path : string) : result hasher :=
  match fs w path with
  | Missing => Raise OSError
  | Directory _ => Raise OSError
  | RegularFile f =>
      if can_open f then read_loop chunk_size (read_fault f) 0 (data f) md5_new
      else Raise OSError
  end.

Definition compute_file_hash (path : string) : option string :=
  match hash_stream path with
  | Ok h => Some (hasher_hexdigest h)
  | Raise _ => None
  end.

Definition os_path_exists (path : string) : bool :=
  match fs w path with
  | Missing => false
  | _ => true
  end.

Definition os_path_getmtime (path : string) : result float64 :=
  match fs w path with
  | Missing => Raise OSError
  | Directory m => Ok m
  | RegularFile f => Ok (st_mtime f)
  end.

Local Open Scope M_scope.

Definition get_file_record (path : string) : M (option (float64 * string)) :=
  fun s => (Ok (files s !! path), s).

Definition upsert_file_record (path : string) (modified : float64) (hash : string)
  : M unit :=
  fun s => (Ok tt, {| files := <[path := (modified, hash)]> (files s);
                      collection := collection s; calls := calls s |}).

Definition delete_file_record (path : string) : M unit :=
  fun s => (Ok tt, {| files := delete path (files s);
                      collection := collection s; calls := calls s |}).

(** [RAGFileEventHandler.process] *)
Definition process (path : string) (event_type : string) : M unit :=
  if negb (os_path_exists path) then ret tt
  else
    match rbind (os_path_getmtime path)
                (fun m => Ok (m, compute_file_hash path)) with
    | Raise _ => ret tt
    | Ok (current_modified, None) => ret tt
    | Ok (current_modified, Some current_hash) =>
        record <- get_file_record path ;;
        match record with
        | None =>
            upsert_file_record path current_modified current_hash ;;;
            add_to_vector_db w path ;;;
            ret tt
        | Some (last_modified, last_hash) =>
            if negb (String.eqb current_hash last_hash) then
              upsert_file_record path current_modified current_hash ;;;
              add_to_vector_db w path ;;;
              ret tt
            else ret tt
        end
    end.

(** A watchdog file system event. *)
Record event := {
  is_directory : bool;
  src_path : string;
  dest_path : string
}.

Definition on_created (ev : event) : M unit :=
  if negb (is_directory ev) then process (src_path ev) "created" else ret tt.

Definition on_modified (ev : event) : M unit :=
  if negb (is_directory ev) then process (src_path ev) "modified" else ret tt.

Definition on_deleted (ev : event) : M unit :=
  if negb (is_directory ev) then
    delete_file_record (src_path ev) ;;;
    delete_from_vector_db w (src_path ev)
  else ret tt.

Definition on_moved (ev : event) : M unit :=
  if negb (is_directory ev) then
    delete_file_record (src_path ev) ;;;
    delete_from_vector_db w (src_path ev) ;;;
    process (dest_path ev) "moved"
  else ret tt.

End Handler.

(** ** Notions of the specification *)

Fixpoint count_calls (p : call -> bool) (l : list call) : nat :=
  match l with
  | [] => 0
  | c :: rest => (if p c then 1 else 0) + count_calls p rest
  end.

Definition is_add (c : call) : bool :=
  match c with CollectionAdd _ => true | _ => false end.

Definition is_embed (c : call) : bool :=
  match c with EmbedContent _ => true | _ => false end.

(** Index upsert calls and embedding calls made so far. *)
Definition add_calls (s : state) : nat := count_calls is_add (calls s).
Definition embed_calls (s : state) : nat := count_calls is_embed (calls s).

(** The state of a path in the change-record store. *)
Definition untracked (s : state) (path : string) : Prop :=
  files s !! path = None.

Definition tracked (s : state) (path : string) (h : string) : Prop :=
  exists modified, files s !! path = Some (modified, h).

(** A file whose bytes can be read to the end. *)
Definition readable (w : world) (path : string) (bytes : list byte) : Prop :=
  exists f, fs w path = RegularFile f /\ can_open f = true /\
            read_fault f = None /\ data f = bytes.

(** The read call [j] is reached when hashing [len] bytes: the first
    call always, a later one while bytes remain. *)
Definition fault_reached (size j len : nat) : Prop :=
  j = 0 \/ (j - 1) * size < len.

(** A path that cannot be hashed: gone, a directory, not openable, or
    failing at a read that the loop reaches. *)
Definition unreadable (w : world) (path : string) : Prop :=
  match fs w path with
  | Missing => True
  | Directory _ => True
  | RegularFile f =>
      can_open f = false \/
      exists j, read_fault f = Some j /\
                fault_reached chunk_size j (length (data f))
  end.

(** A rewrite of [path] that only changes its modification time. *)
Definition touch (w : world) (path : string) (mtime : float64) : world :=
  {| fs := fun p =>
       if String.eqb p path then
         match fs w p with
         | RegularFile f =>
             RegularFile {| st_size := st_size f; st_mtime := mtime;
                            data := data f; can_open := can_open f;
                            read_fault := read_fault f |}
         | n => n
         end
       else fs w p;
     lib := lib w; embed_content := embed_content w;
     add_fails := add_fails w; delete_fails := delete_fails w |}.

(** The state in which the indexing step runs: the record is already
    written. *)
Definition record_written (path : string) (modified : float64) (hash : string)
  (s : state) : state :=
  {| files := <[path := (modified, hash)]> (files s);
     collection := collection s; calls := calls s |}.

(** A record that does not carry the hash [h]. *)
Definition stale (s : state) (path : string) (h : string) : Prop :=
  match files s !! path with
  | None => True
  | Some (_, last_hash) => last_hash <> h
  end.

(** The indexing step succeeded from [s] to [s']: one embedding call, one
    add call, and the entry of [path] written unless the path had one. *)
Definition indexed (w : world) (path : string) (s s' : state) : Prop :=
  exists text values,
    open_file w path = Ok (Some text) /\ text <> "" /\
    embed_content w text = Ok values /\ values <> [] /\
    add_fails w path = false /\
    files s' = files s /\
    collection s' =
      add_entry path {| document := text; metadata_source := path;
                        embedding_values := map float32 values |}
                (collection s) /\
    calls s' = (calls s ++ [EmbedContent text; CollectionAdd path])%list.

(** Processing [path] in [s] reaches the indexing step: the content can
    be hashed and the store has no record with that hash. *)
Definition reaches_indexing (w : world) (path : string) (s : state) : Prop :=
  exists h, compute_file_hash w path = Some h /\ stale s path h.

(** Extraction, embedding or the add to the index fails for [path]. *)
Definition index_mutation_fails (w : world) (path : string) : Prop :=
  forall s, fst (add_to_vector_db w path s) <> Ok true.

(** The state after the same Modified event was processed twice with the
    file system unchanged in between. *)
Definition modified_twice (w : world) (ev : event) (s : state) : state :=
  snd (on_modified w ev (snd (on_modified w ev s))).

(** The state in which a Moved event runs the policy for the destination:
    the source record deleted, the delete sent to the index. *)
Definition source_removed (w : world) (src : string) (s : state) : state :=
  snd (delete_from_vector_db w src (snd (delete_file_record src s))).

(** The same world with other parsers. *)
Definition with_lib (w : world) (l : library) : world :=
  {| fs := fs w; lib := l; embed_content := embed_content w;
     add_fails := add_fails w; delete_fails := delete_fails w |}.

(** ** Sentences of the specification, as worded there *)

(** C1 as the specification words it: a failed index mutation leaves the
    record of the path as it was. *)
Definition record_written_only_after_index : Prop :=
  forall w path event_type s,
    reaches_indexing w path s ->
    index_mutation_fails w path ->
    files (snd (process w path event_type s)) !! path = files s !! path.

(** C3 as the specification words it: two runs make exactly one index
    upsert call between them. *)
Definition exactly_one_upsert : Prop :=
  forall w ev s,
    is_directory ev = false ->
    add_calls (modified_twice w ev s) = add_calls s + 1.

(** C5 as the specification words it: after a Moved event the source is
    untracked and out of the index and the destination is tracked with
    the hash of its bytes. *)
Definition move_leaves_destination_tracked : Prop :=
  forall w ev s,
    is_directory ev = false ->
    let s' := snd (on_moved w ev s) in
    untracked s' (src_path ev) /\
    collection s' !! src_path ev = None /\
    exists bytes, readable w (dest_path ev) bytes /\
                  tracked s' (dest_path ev) (Md5.hexdigest bytes).

(** C6 as the specification words it: a Deleted event returns normally
    and removes the record and the index entry of the path. *)
Definition deleted_event_removes_entry : Prop :=
  forall w ev s,
    is_directory ev = false ->
    let s' := snd (on_deleted w ev s) in
    fst (on_deleted w ev s) = Ok tt /\
    untracked s' (src_path ev) /\
    collection s' !! src_path ev = None.

(** C10 as the specification words it: after a Created or Modified event
    on a zero-byte file the path is tracked and absent from the index. *)
Definition empty_file_absent_from_index : Prop :=
  forall w ev s f,
    is_directory ev = false ->
    fs w (src_path ev) = RegularFile f ->
    st_size f = 0%Z -> data f = [] ->
    can_open f = true -> read_fault f = None ->
    forall s',
      s' = snd (on_created w ev s) \/ s' = snd (on_modified w ev s) ->
      tracked s' (src_path ev) "d41d8cd98f00b204e9800998ecf8427e" /\
      collection s' !! src_path ev = None.

(** ** Sample worlds *)

(** Text reads give the one-letter note; every other parser fails. *)
Definition sample_lib : library := {|
  has_openpyxl := true; has_beautifulsoup := true; has_pptx := true;
  chardet_detect := fun _ => Ok (Some "ascii");
  open_read := fun _ _ => Ok "a";
  read_decode_ignore := fun _ => Ok "a";
  docx2txt_process := fun _ => Raise OtherError;
  fitz_pages := fun _ => Raise OtherError;
  odt_texts := fun _ => Raise OtherError;
  json_load_dumps := fun _ => Raise JSONDecodeError;
  csv_reader := fun _ _ _ => Raise OtherError;
  soup_get_text := fun _ _ _ => Raise OtherError;
  openpyxl_text := fun _ => Raise OtherError;
  pptx_text := fun _ => Raise OtherError;
  zip_namelist := fun _ => Raise OtherError;
  tar_getnames := fun _ => Raise OtherError;
  image_to_string := fun _ => Raise OtherError;
  guess_type := fun _ => None |}.

Definition file_a (mtime : float64) : file :=
  {| st_size := 1%Z; st_mtime := mtime; data := ["a"%byte];
     can_open := true; read_fault := None |}.

Definition file_empty : file :=
  {| st_size := 0%Z; st_mtime := 7%Z; data := [];
     can_open := true; read_fault := None |}.

Definition file_large : file :=
  {| st_size := 52428801%Z; st_mtime := 7%Z; data := [];
     can_open := true; read_fault := None |}.

Definition file_locked : file :=
  {| st_size := 1%Z; st_mtime := 7%Z; data := ["a"%byte];
     can_open := false; read_fault := None |}.

Definition file_failing : file :=
  {| st_size := 1%Z; st_mtime := 7%Z; data := ["a"%byte];
     can_open := true; read_fault := Some 1 |}.

Definition sample_fs (p : string) : node :=
  if String.eqb p "/watched/notes.txt" then RegularFile (file_a 100%Z)
  else if String.eqb p "/watched/copy.txt" then RegularFile (file_a 200%Z)
  else if String.eqb p "/watched/empty.txt" then RegularFile file_empty
  else if String.eqb p "/watched/large.txt" then RegularFile file_large
  else if String.eqb p "/watched/locked.txt" then RegularFile file_locked
  else if String.eqb p "/watched/failing.txt" then RegularFile file_failing
  else if String.eqb p "/watched/scan.pdf" then RegularFile (file_a 300%Z)
  else if String.eqb p "/watched/letter.odt" then RegularFile (file_a 300%Z)
  else if String.eqb p "/watched/sub" then Directory 5%Z
  else Missing.

(** All services up. *)
Definition world_up : world :=
  {| fs := sample_fs; lib := sample_lib;
     embed_content := fun _ => Ok [1%Z];
     add_fails := fun _ => false; delete_fails := fun _ => false |}.

(** The embedding service is unreachable. *)
Definition world_down : world :=
  {| fs := sample_fs; lib := sample_lib;
     embed_content := fun _ => Raise OtherError;
     add_fails := fun _ => false; delete_fails := fun _ => false |}.

Definition state_empty : state :=
  {| files := ∅; collection := ∅; calls := [] |}.

Definition file_event (src : string) : event :=
  {| is_directory := false; src_path := src; dest_path := "" |}.

Definition move_event (src dest : string) : event :=
  {| is_directory := false; src_path := src; dest_path := dest |}.

Definition notes_event : event := file_event "/watched/notes.txt".
Definition empty_event : event := file_event "/watched/empty.txt".
Definition letter_event : event := file_event "/watched/letter.odt".
Definition unseen_event : event := file_event "/watched/never_seen.txt".
Definition notes_to_copy : event :=
  move_event "/watched/notes.txt" "/watched/copy.txt".
Definition notes_to_gone : event :=
  move_event "/watched/notes.txt" "/watched/gone.txt".

(** The note was created and indexed with all services up. *)
Definition state_notes_indexed : state :=
  snd (on_created world_up notes_event state_empty).

(** ** Event streams *)

(** The method of the handler that watchdog calls for an event. *)
Inductive callback := Created | Modified | Deleted | Moved.

Definition handle (w : world) (c : callback) (ev : event) : M unit :=
  match c with
  | Created => on_created w ev
  | Modified => on_modified w ev
  | Deleted => on_deleted w ev
  | Moved => on_moved w ev
  end.

(** One delivered event, with the world as it is when the callback runs. *)
Record delivery := {
  at_world : world;
  kind : callback;
  payload : event
}.

(** The state after the callbacks of a stream of events, one after the
    other; what a callback wrote stays written when it raises. *)
Fixpoint run_events (l : list delivery) (s : state) : state :=
  match l with
  | [] => s
  | d :: rest =>
      run_events rest (snd (handle (at_world d) (kind d) (payload d) s))
  end.

Definition is_delete (c : call) : bool :=
  match c with CollectionDelete _ => true | _ => false end.

Definition delete_calls (s : state) : nat := count_calls is_delete (calls s).

(** Every indexed path has a record. *)
Definition index_within_records (s : state) : Prop :=
  forall p, is_Some (collection s !! p) -> is_Some (files s !! p).

(** Every entry is stored under its own path, with a text and a vector. *)
Definition entries_well_formed (s : state) : Prop :=
  forall p e, collection s !! p = Some e ->
    metadata_source e = p /\ document e <> "" /\ embedding_values e <> [].

(** Every stored hash has the length of an MD5 hex digest. *)
Definition hashes_well_formed (s : state) : Prop :=
  forall p m h, files s !! p = Some (m, h) -> String.length h = 32.

(** The collection takes every delete of the stream. *)
Definition deletes_succeed (l : list delivery) : Prop :=
  Forall (fun d => forall p, delete_fails (at_world d) p = false) l.

(** The events of a stream that can lead to an embedding call. *)
Fixpoint indexing_events (l : list delivery) : nat :=
  match l with
  | [] => 0
  | d :: rest =>
      (match kind d with Deleted => 0 | _ => 1 end) + indexing_events rest
  end.

(** What [open_file] makes of the outcome of a reader. *)
Definition as_optional (r : result string) : result (option string) :=
  match r with
  | Ok text => Ok (Some text)
  | Raise _ => Ok None
  end.

(** A regular file that is neither empty nor above the size limit, with
    the handler [h] for its extension. *)
Definition dispatched_to (w : world) (path : string) (h : handler) : Prop :=
  exists f, fs w path = RegularFile f /\
            st_size f <> 0%Z /\ (st_size f <= max_size)%Z /\
            handlers (lower (suffix path)) = Some h.

(** Files of several formats, each one byte long. *)
Definition formats_fs (p : string) : node :=
  if existsb (String.eqb p)
       [ "/docs/README.TXT"; "/docs/data.json"; "/docs/table.csv";
         "/docs/page.html"; "/docs/paper.pdf"; "/docs/photo.png";
         "/docs/backup.tar.gz"; "/docs/sheet.xlsx"; "/docs/blob.xyz" ]
  then RegularFile (file_a 1%Z)
  else Missing.

Definition world_formats : world :=
  {| fs := formats_fs; lib := sample_lib;
     embed_content := fun _ => Ok [1%Z];
     add_fails := fun _ => false; delete_fails := fun _ => false |}.

(** ** Further notions and sample worlds *)

(** The attempt with [enc] fails to decode. *)
Definition undecodable (w : world) (path enc : string) : Prop :=
  open_read (lib w) path enc = Raise UnicodeDecodeError.

(** A library whose reads decode as latin-1 only. *)
Definition latin1_lib : library := {|
  has_openpyxl := false; has_beautifulsoup := false; has_pptx := false;
  chardet_detect := fun _ => Raise OSError;
  open_read := fun _ enc =>
    if String.eqb enc "latin-1" then Ok "caf" else Raise UnicodeDecodeError;
  read_decode_ignore := fun _ => Ok "cf";
  docx2txt_process := fun _ => Raise OtherError;
  fitz_pages := fun _ => Raise OtherError;
  odt_texts := fun _ => Raise OtherError;
  json_load_dumps := fun _ => Raise UnicodeDecodeError;
  csv_reader := fun _ _ _ => Raise OtherError;
  soup_get_text := fun _ _ _ => Raise OtherError;
  openpyxl_text := fun _ => Raise OtherError;
  pptx_text := fun _ => Raise OtherError;
  zip_namelist := fun _ => Raise OtherError;
  tar_getnames := fun _ => Raise OtherError;
  image_to_string := fun _ => Raise OtherError;
  guess_type := fun _ => None |}.

Definition world_latin1 : world := with_lib world_formats latin1_lib.

(** chardet names an encoding that [open] rejects; utf-8 would decode. *)
Definition unknown_encoding_lib : library := {|
  has_openpyxl := false; has_beautifulsoup := false; has_pptx := false;
  chardet_detect := fun _ => Ok (Some "x-unknown");
  open_read := fun _ enc =>
    if String.eqb enc "x-unknown" then Raise OtherError else Ok "text";
  read_decode_ignore := fun _ => Ok "text";
  docx2txt_process := fun _ => Raise OtherError;
  fitz_pages := fun _ => Raise OtherError;
  odt_texts := fun _ => Raise OtherError;
  json_load_dumps := fun _ => Raise JSONDecodeError;
  csv_reader := fun _ _ _ => Raise OtherError;
  soup_get_text := fun _ _ _ => Raise OtherError;
  openpyxl_text := fun _ => Raise OtherError;
  pptx_text := fun _ => Raise OtherError;
  zip_namelist := fun _ => Raise OtherError;
  tar_getnames := fun _ => Raise OtherError;
  image_to_string := fun _ => Raise OtherError;
  guess_type := fun _ => None |}.

Definition world_unknown_encoding : world :=
  with_lib world_formats unknown_encoding_lib.

(** A CSV parser that finds 1002 rows of two cells. *)
Definition table_lib : library := {|
  has_openpyxl := false; has_beautifulsoup := false; has_pptx := false;
  chardet_detect := fun _ => Ok (Some "ascii");
  open_read := fun _ _ => Ok "a";
  read_decode_ignore := fun _ => Ok "a";
  docx2txt_process := fun _ => Raise OtherError;
  fitz_pages := fun _ => Raise OtherError;
  odt_texts := fun _ => Raise OtherError;
  json_load_dumps := fun _ => Raise JSONDecodeError;
  csv_reader := fun _ _ _ => Ok (repeat ["x"; "y"] 1002);
  soup_get_text := fun _ _ _ => Raise OtherError;
  openpyxl_text := fun _ => Ok "Sheet: S";
  pptx_text := fun _ => Raise OtherError;
  zip_namelist := fun _ => Ok ["a.txt"];
  tar_getnames := fun _ => Ok ["a.txt"];
  image_to_string := fun _ => Ok "scanned text";
  guess_type := fun _ => Some "text/plain" |}.

Definition world_table : world := with_lib world_formats table_lib.

(** Extraction gives a text, the service a vector for it. *)
Definition embeddable (w : world) (path text : string) (values : list float64)
  : Prop :=
  open_file w path = Ok (Some text) /\ text <> "" /\
  embed_content w text = Ok values /\ values <> [].




(** The calls of [s'] exceed those of [s] by at most one embedding call,
    by no more add calls than embedding calls, and by no delete call. *)
Definition within_budget (s s' : state) : Prop :=
  embed_calls s <= embed_calls s' <= embed_calls s + 1 /\
  add_calls s <= add_calls s' /\
  add_calls s' + embed_calls s <= add_calls s + embed_calls s' /\
  delete_calls s' = delete_calls s.

(** A one-byte file whose third read would fail: the loop makes two. *)
Definition file_late_fault : file :=
  {| st_size := 1%Z; st_mtime := 7%Z; data := ["a"%byte];
     can_open := true; read_fault := Some 2 |}.

Definition world_late_fault : world :=
  {| fs := fun _ => RegularFile file_late_fault; lib := sample_lib;
     embed_content := fun _ => Ok [1%Z];
     add_fails := fun _ => false; delete_fails := fun _ => false |}.

(** The directory of the sample file system, as a directory event; as a
    move, its destination is the note. *)
Definition sub_event : event :=
  {| is_directory := true; src_path := "/watched/sub";
     dest_path := "/watched/notes.txt" |}.

(** The collection refuses every delete. *)
Definition world_delete_refused : world :=
  {| fs := sample_fs; lib := sample_lib;
     embed_content := fun _ => Ok [1%Z];
     add_fails := fun _ => false; delete_fails := fun _ => true |}.

(** The note has been truncated to no bytes; its modification time is
    [mtime]. *)
Definition file_truncated (mtime : float64) : file :=
  {| st_size := 0%Z; st_mtime := mtime; data := [];
     can_open := true; read_fault := None |}.

Definition world_notes_truncated (mtime : float64) : world :=
  {| fs := fun p =>
       if String.eqb p "/watched/notes.txt" then RegularFile (file_truncated mtime)
       else sample_fs p;
     lib := sample_lib;
     embed_content := fun _ => Ok [1%Z];
     add_fails := fun _ => false; delete_fails := fun _ => false |}.

(** The embedding service answers 0.1, 1.0 and 1e-46. *)
Definition world_three_values : world :=
  {| fs := sample_fs; lib := sample_lib;
     embed_content := fun _ =>
       Ok [0x3FB999999999999A%Z; 0x3FF0000000000000%Z; 0x366244CE242C5561%Z];
     add_fails := fun _ => false; delete_fails := fun _ => false |}.

(** The empty file after a rewrite that changed its modification time
    only, at a moment when the embedding service is down. *)
Definition world_empty_touched : world :=
  touch world_down "/watched/empty.txt" 99%Z.

(** ** Facts about the digest *)

Lemma hex_length bs : String.length (Md5.hex bs) = 2 * length bs.
Proof.
  induction bs as [|b bs IH]; [reflexivity|].
  cbn [Md5.hex String.length length]. rewrite IH. lia.
Qed.

Lemma le_bytes_length n x : length (Md5.le_bytes n x) = n.
Proof. unfold Md5.le_bytes. by rewrite length_map, length_seq. Qed.

Lemma digest_length msg : length (Md5.digest msg) = 16.
Proof.
  unfold Md5.digest. cbv zeta.
  rewrite !length_app, !le_bytes_length. reflexivity.
Qed.

Lemma hexdigest_length msg : String.length (Md5.hexdigest msg) = 32.
Proof. unfold Md5.hexdigest. by rewrite hex_length, digest_length. Qed.

Example md5_empty : Md5.hexdigest [] = "d41d8cd98f00b204e9800998ecf8427e".
Proof. vm_compute. reflexivity. Qed.

Example md5_a : Md5.hexdigest ["a"%byte] = "0cc175b9c0f1b6a831c399e269772661".
Proof. vm_compute. reflexivity. Qed.

Example md5_abc :
  Md5.hexdigest ["a"; "b"; "c"]%byte = "900150983cd24fb0d6963f7d28e17f72".
Proof. vm_compute. reflexivity. Qed.

(** 0.1, 1.0, 1e-46, 3.5e38, 16777217, the largest double that rounds to
    a finite single, minus infinity and two NaNs in single precision. *)
Example float32_values :
  map float32 [0x3FB999999999999A; 0x3FF0000000000000; 0x366244CE242C5561;
               0x47F074F8C4D3CD7B; 0x4170000010000000; 0x47EFFFFFEFFFFFFF;
               0xFFF0000000000000; 0xFFF4000000000000; 0x7FF0000000000001]%Z
  = [0x3FB99999A0000000; 0x3FF0000000000000; 0;
     0x7FF0000000000000; 0x4170000000000000; 0x47EFFFFFE0000000;
     0xFFF0000000000000; 0xFFFC000000000000; 0x7FF8000000000000]%Z.
Proof. vm_compute. reflexivity. Qed.

(** Two blocks: eighty bytes of digits. *)
Example md5_two_blocks :
  Md5.hexdigest (concat (repeat ["1"; "2"; "3"; "4"; "5"; "6"; "7"; "8"; "9"; "0"]%byte 8))
  = "57edf4a22be3c955ac49da2e2107b67a".
Proof. vm_compute. reflexivity. Qed.

(** ** Facts about the read loop *)

Lemma read_loop_no_fault size fault k rest h :
  0 < size -> fault = None ->
  read_loop size fault k rest h = Ok (h ++ rest)%list.
Proof.
  intros Hsize Hf. funelim (read_loop size fault k rest h).
  - discriminate.
  - destruct size; [lia|]. destruct rest; [|discriminate].
    by rewrite app_nil_r.
  - rewrite H by done. unfold hasher_update.
    rewrite <- app_assoc, <- E. by rewrite firstn_skipn.
Qed.

Lemma read_loop_fault size fault k rest h j :
  0 < size -> fault = Some j -> k <= j ->
  fault_reached size (j - k) (length rest) ->
  read_loop size fault k rest h = Raise OSError.
Proof.
  intros Hsize Hf Hk Hr. funelim (read_loop size fault k rest h).
  - reflexivity.
  - assert (j ≠ k) by congruence.
    destruct size; [lia|]. destruct rest; [|discriminate].
    exfalso. destruct Hr as [Hr|Hr]; cbn [length] in Hr; [lia|].
    by apply Nat.nlt_0_r in Hr.
  - assert (j ≠ k) by congruence.
    apply (H j); [done|done|lia|].
    destruct Hr as [Hr|Hr]; [lia|].
    unfold fault_reached. rewrite length_skipn.
    destruct (decide (j - S k = 0)) as [?|Hne]; [by left|right].
    replace (j - k - 1) with (S (j - S k - 1)) in Hr by lia.
    rewrite Nat.mul_succ_l in Hr. lia.
Qed.

Lemma chunk_size_pos : 0 < chunk_size.
Proof. apply Nat.ltb_lt. vm_compute. reflexivity. Qed.

(** ** Facts about [compute_file_hash] *)

Lemma compute_file_hash_readable w path bytes :
  readable w path bytes ->
  compute_file_hash w path = Some (Md5.hexdigest bytes).
Proof.
  intros (f & Hf & Hopen & Hfault & Hdata).
  unfold compute_file_hash, hash_stream. rewrite Hf, Hopen.
  rewrite (read_loop_no_fault _ _ _ _ _ chunk_size_pos Hfault).
  unfold md5_new, hasher_hexdigest. by rewrite app_nil_l, Hdata.
Qed.

Lemma compute_file_hash_unreadable w path :
  unreadable w path -> compute_file_hash w path = None.
Proof.
  unfold unreadable, compute_file_hash, hash_stream.
  destruct (fs w path) as [| |f]; [done|done|].
  intros [Hopen|(j & Hfault & Hreach)].
  - by rewrite Hopen.
  - destruct (can_open f); [|done].
    rewrite (read_loop_fault _ _ _ _ _ j chunk_size_pos Hfault); [done|lia|].
    by rewrite Nat.sub_0_r.
Qed.

Lemma compute_file_hash_Some w path h :
  compute_file_hash w path = Some h ->
  exists f, fs w path = RegularFile f.
Proof.
  unfold compute_file_hash, hash_stream.
  destruct (fs w path) as [| |f]; [done|done|]. eauto.
Qed.

Lemma compute_file_hash_touch w path mtime p :
  compute_file_hash (touch w path mtime) p = compute_file_hash w p.
Proof.
  unfold compute_file_hash, hash_stream, touch. cbn [fs].
  destruct (String.eqb p path); [|done].
  by destruct (fs w p).
Qed.

(** ** Facts about [process] *)

Lemma process_missing w path event_type s :
  os_path_exists w path = false -> process w path event_type s = (Ok tt, s).
Proof. intros H. unfold process. by rewrite H. Qed.

Lemma process_unhashable w path event_type s :
  compute_file_hash w path = None -> process w path event_type s = (Ok tt, s).
Proof.
  intros H. unfold process. rewrite H.
  destruct (os_path_exists w path); [|done].
  by destruct (os_path_getmtime w path).
Qed.

Lemma process_unchanged w path event_type s h last_modified :
  compute_file_hash w path = Some h ->
  files s !! path = Some (last_modified, h) ->
  process w path event_type s = (Ok tt, s).
Proof.
  intros Hh Hrec. unfold process. rewrite Hh.
  destruct (os_path_exists w path); [|done].
  destruct (os_path_getmtime w path) as [m|e]; [|done].
  cbn. unfold bind, get_file_record. rewrite Hrec.
  by rewrite String.eqb_refl.
Qed.

Lemma process_changed w path event_type s f h :
  fs w path = RegularFile f ->
  compute_file_hash w path = Some h ->
  stale s path h ->
  process w path event_type s =
    bind (add_to_vector_db w path) (fun _ => ret tt)
         (record_written path (st_mtime f) h s).
Proof.
  intros Hf Hh Hstale. unfold process, os_path_exists, os_path_getmtime.
  rewrite Hh, Hf. cbn. unfold stale in Hstale.
  unfold bind at 1. unfold get_file_record.
  destruct (files s !! path) as [[lm lh]|] eqn:Hrec.
  - apply String.eqb_neq in Hstale. rewrite String.eqb_sym, Hstale. reflexivity.
  - reflexivity.
Qed.

(** ** Facts about [add_to_vector_db] *)

Lemma add_entry_cases id e (c : gmap string entry) :
  (c !! id = None /\ add_entry id e c = <[id := e]> c) \/
  (is_Some (c !! id) /\ add_entry id e c = c).
Proof.
  unfold add_entry. destruct (c !! id) as [e'|]; [right|left]; [|done].
  split; [by eexists|done].
Qed.

Lemma add_entry_lookup_ne id e (c : gmap string entry) q :
  q <> id -> add_entry id e c !! q = c !! q.
Proof.
  intros Hq. destruct (add_entry_cases id e c) as [[_ ->]|[_ ->]]; [|done].
  by apply lookup_insert_ne.
Qed.

Lemma delete_add_entry id e (c : gmap string entry) :
  delete id (add_entry id e c) = delete id c.
Proof.
  destruct (add_entry_cases id e c) as [[_ ->]|[_ ->]]; [|done].
  apply delete_insert_eq.
Qed.

Lemma count_calls_app p l1 l2 :
  count_calls p (l1 ++ l2)%list = count_calls p l1 + count_calls p l2.
Proof. induction l1 as [|c l1 IH]; cbn; [done|]. rewrite IH. lia. Qed.

Lemma add_to_vector_db_cases w path s :
  files (snd (add_to_vector_db w path s)) = files s /\
  ((fst (add_to_vector_db w path s) = Ok true /\
    indexed w path s (snd (add_to_vector_db w path s))) \/
   (fst (add_to_vector_db w path s) <> Ok true /\
    collection (snd (add_to_vector_db w path s)) = collection s /\
    add_calls (snd (add_to_vector_db w path s)) <= add_calls s + 1)).
Proof.
  unfold add_to_vector_db, indexed, add_calls.
  unfold bind at 1. unfold lift at 1.
  destruct (open_file w path) as [[text|]|e] eqn:Hopen; cbn;
    [|split; [done|right; repeat split; [done|lia]]
     |split; [done|right; repeat split; [done|lia]]].
  destruct (String.eqb text "") eqn:Htext; cbn;
    [split; [done|right; repeat split; [done|lia]]|].
  apply String.eqb_neq in Htext.
  unfold bind, embedding, catch, record_call, lift, collection_add, ret; cbn.
  destruct (embed_content w text) as [[|v vs]|e] eqn:Hembed; cbn.
  - split; [done|right]. rewrite count_calls_app; cbn. repeat split; [done|lia].
  - unfold bind, record_call, lift; cbn.
    destruct (add_fails w path) eqn:Hadd; cbn.
    + split; [done|right]. rewrite !count_calls_app; cbn.
      repeat split; [done|lia].
    + split; [done|left]. split; [done|].
      exists text, (v :: vs). rewrite <- app_assoc. by repeat split.
  - split; [done|right]. rewrite count_calls_app; cbn. repeat split; [done|lia].
Qed.

Lemma indexed_add_calls w path s s' :
  indexed w path s s' -> add_calls s' = add_calls s + 1.
Proof.
  intros (text & values & _ & _ & _ & _ & _ & _ & _ & Hcalls).
  unfold add_calls. rewrite Hcalls, count_calls_app. reflexivity.
Qed.

(** ** The content fingerprint *)

(** C9. The fingerprint is a function of the bytes alone: two readable
    files with the same bytes, whatever their paths and modification
    times, hash to the same value, the MD5 of the bytes, written as 32
    hexadecimal characters; a path that cannot be read to the end gives
    [None] and no exception. *)
Theorem fingerprint_deterministic :
  (forall w1 w2 p1 p2 bytes,
      readable w1 p1 bytes -> readable w2 p2 bytes ->
      exists digest,
        compute_file_hash w1 p1 = Some digest /\
        compute_file_hash w2 p2 = Some digest /\
        digest = Md5.hexdigest bytes /\
        String.length digest = 32) /\
  (forall w p, unreadable w p -> compute_file_hash w p = None).
Proof.
  split.
  - intros w1 w2 p1 p2 bytes H1 H2. exists (Md5.hexdigest bytes).
    rewrite (compute_file_hash_readable _ _ _ H1).
    rewrite (compute_file_hash_readable _ _ _ H2).
    split; [done|]. split; [done|]. split; [done|]. apply hexdigest_length.
  - apply compute_file_hash_unreadable.
Qed.

Lemma fingerprint_deterministic_witness :
  (exists digest,
      compute_file_hash world_up "/watched/notes.txt" = Some digest /\
      compute_file_hash world_down "/watched/copy.txt" = Some digest /\
      digest = Md5.hexdigest ["a"%byte] /\
      String.length digest = 32) /\
  compute_file_hash world_up "/watched/locked.txt" = None /\
  compute_file_hash world_up "/watched/failing.txt" = None /\
  compute_file_hash world_up "/watched/gone.txt" = None.
Proof.
  split; [|split; [|split]].
  - apply (proj1 fingerprint_deterministic).
    + exists (file_a 100%Z). repeat split; reflexivity.
    + exists (file_a 200%Z). repeat split; reflexivity.
  - apply (proj2 fingerprint_deterministic). left. reflexivity.
  - apply (proj2 fingerprint_deterministic).
    right. exists 1. split; [reflexivity|]. right. cbn [data file_failing length]. lia.
  - apply (proj2 fingerprint_deterministic). exact I.
Defined.

(** ** Skipped events *)

(** C7. A Created or Modified event whose path is gone when processing
    begins, or whose content cannot be hashed, is skipped: the callback
    returns and the record store, the index and the calls made are what
    they were. *)
Theorem vanished_path_skipped :
  forall w ev s,
    is_directory ev = false ->
    os_path_exists w (src_path ev) = false \/
      compute_file_hash w (src_path ev) = None ->
    on_created w ev s = (Ok tt, s) /\ on_modified w ev s = (Ok tt, s).
Proof.
  intros w ev s Hdir Hgone. unfold on_created, on_modified. rewrite Hdir. cbn.
  destruct Hgone as [Hmissing|Hhash].
  - by rewrite !process_missing.
  - by rewrite !process_unhashable.
Qed.

Lemma vanished_path_skipped_witness :
  (on_created world_up (file_event "/watched/gone.txt") state_empty
     = (Ok tt, state_empty) /\
   on_modified world_up (file_event "/watched/gone.txt") state_empty
     = (Ok tt, state_empty)) /\
  (on_created world_up (file_event "/watched/locked.txt") state_empty
     = (Ok tt, state_empty) /\
   on_modified world_up (file_event "/watched/locked.txt") state_empty
     = (Ok tt, state_empty)).
Proof.
  split.
  - apply vanished_path_skipped; [reflexivity|]. left. reflexivity.
  - apply vanished_path_skipped; [reflexivity|]. right. reflexivity.
Defined.

(** ** Content over timestamp *)

Lemma open_file_touch w path mtime p :
  open_file (touch w path mtime) p = open_file w p.
Proof.
  unfold open_file, touch. cbn [fs].
  destruct (String.eqb p path); [|done].
  by destruct (fs w p).
Qed.

(** [add_to_vector_db] in one piece. *)
Lemma add_to_vector_db_unfold w path s :
  add_to_vector_db w path s =
  match open_file w path with
  | Raise e => (Raise e, s)
  | Ok text =>
      match truthy_text text with
      | None => (Ok false, s)
      | Some t =>
          let logged := (calls s ++ [EmbedContent t])%list in
          match embed_content w t with
          | Ok (v :: vs) =>
              if add_fails w path then
                (Raise OtherError,
                 {| files := files s; collection := collection s;
                    calls := (logged ++ [CollectionAdd path])%list |})
              else
                (Ok true,
                 {| files := files s;
                    collection :=
                      add_entry path
                        {| document := t; metadata_source := path;
                           embedding_values := map float32 (v :: vs) |}
                        (collection s);
                    calls := (logged ++ [CollectionAdd path])%list |})
          | _ => (Ok false,
                  {| files := files s; collection := collection s;
                     calls := logged |})
          end
      end
  end.
Proof.
  unfold add_to_vector_db. unfold bind at 1. unfold lift at 1.
  destruct (open_file w path) as [text|e]; [|done].
  destruct (truthy_text text) as [t|]; [|done].
  unfold bind, embedding, catch, record_call, lift, collection_add, ret; cbn.
  destruct (embed_content w t) as [[|v vs]|e]; cbn; [done| |done].
  unfold bind, record_call, lift; cbn.
  by destruct (add_fails w path).
Qed.

(** The indexing step reads the index and the call log only. *)
Lemma add_to_vector_db_frame w1 w2 path s1 s2 :
  open_file w1 path = open_file w2 path ->
  embed_content w1 = embed_content w2 ->
  add_fails w1 = add_fails w2 ->
  collection s1 = collection s2 -> calls s1 = calls s2 ->
  fst (add_to_vector_db w1 path s1) = fst (add_to_vector_db w2 path s2) /\
  collection (snd (add_to_vector_db w1 path s1))
    = collection (snd (add_to_vector_db w2 path s2)) /\
  calls (snd (add_to_vector_db w1 path s1))
    = calls (snd (add_to_vector_db w2 path s2)).
Proof.
  intros Hopen Hembed Hadd Hcoll Hcalls.
  rewrite !add_to_vector_db_unfold, Hopen, Hembed, Hadd, Hcoll, Hcalls.
  destruct (open_file w2 path) as [text|e]; [|done].
  destruct (truthy_text text) as [t|]; [|done]. cbv zeta.
  destruct (embed_content w2 t) as [[|v vs]|e]; [done| |done].
  by destruct (add_fails w2 path).
Qed.

Lemma bind_ret_tt {A} (m : M A) s :
  bind m (fun _ => ret tt) s =
  (match fst (m s) with Ok _ => Ok tt | Raise e => Raise e end, snd (m s)).
Proof. unfold bind, ret. by destruct (m s) as [[a|e] s']. Qed.

Lemma stale_cases s path h :
  stale s path h \/ exists last_modified, files s !! path = Some (last_modified, h).
Proof.
  unfold stale. destruct (files s !! path) as [[lm lh]|]; [|by left].
  destruct (decide (lh = h)) as [->|Hne]; [right; eauto|by left].
Qed.

Lemma process_touch w path mtime event_type s :
  fst (process (touch w path mtime) path event_type s)
    = fst (process w path event_type s) /\
  collection (snd (process (touch w path mtime) path event_type s))
    = collection (snd (process w path event_type s)) /\
  calls (snd (process (touch w path mtime) path event_type s))
    = calls (snd (process w path event_type s)).
Proof.
  destruct (compute_file_hash w path) as [h|] eqn:Hh.
  2: { rewrite !process_unhashable; [done|done|by rewrite compute_file_hash_touch]. }
  destruct (compute_file_hash_Some _ _ _ Hh) as [f Hf].
  destruct (stale_cases s path h) as [Hstale|[lm Hrec]].
  - rewrite (process_changed w _ _ _ f h Hf Hh Hstale).
    erewrite (process_changed (touch w path mtime)); [| |by rewrite compute_file_hash_touch|done].
    2: { unfold touch; cbn [fs]. by rewrite String.eqb_refl, Hf. }
    rewrite !bind_ret_tt. cbn [fst snd st_mtime].
    destruct (add_to_vector_db_frame (touch w path mtime) w path
                (record_written path mtime h s)
                (record_written path (st_mtime f) h s)) as (Hr & Hc & Hl);
      [apply open_file_touch|done|done|done|done|].
    by rewrite Hr, Hc, Hl.
  - rewrite !(process_unchanged _ _ _ _ h lm); [done|done|done| |done].
    by rewrite compute_file_hash_touch.
Qed.

(** C2. A Created or Modified event on a path whose computed hash equals
    the stored one does nothing: no embedding call, no index call, no
    write, also when the file has been given a new modification time.
    More generally the calls made and the index after an event never
    depend on the modification time. *)
Theorem unchanged_content_not_reindexed :
  forall w ev s h last_modified,
    is_directory ev = false ->
    compute_file_hash w (src_path ev) = Some h ->
    files s !! src_path ev = Some (last_modified, h) ->
    (on_created w ev s = (Ok tt, s) /\ on_modified w ev s = (Ok tt, s)) /\
    (forall mtime,
        on_created (touch w (src_path ev) mtime) ev s = (Ok tt, s) /\
        on_modified (touch w (src_path ev) mtime) ev s = (Ok tt, s)) /\
    (forall mtime s0,
        calls (snd (on_modified (touch w (src_path ev) mtime) ev s0))
          = calls (snd (on_modified w ev s0)) /\
        collection (snd (on_modified (touch w (src_path ev) mtime) ev s0))
          = collection (snd (on_modified w ev s0))).
Proof.
  intros w ev s h lm Hdir Hh Hrec. unfold on_created, on_modified.
  rewrite Hdir. cbn [negb]. split; [|split].
  - by rewrite !(process_unchanged _ _ _ _ h lm).
  - intros mtime.
    rewrite !(process_unchanged _ _ _ _ h lm); [done|..]; try done;
      by rewrite compute_file_hash_touch.
  - intros mtime s0.
    destruct (process_touch w (src_path ev) mtime "modified" s0) as (_ & Hc & Hl).
    by rewrite Hc, Hl.
Qed.

Lemma unchanged_content_not_reindexed_witness :
  on_modified world_up notes_event state_notes_indexed
    = (Ok tt, state_notes_indexed) /\
  on_modified (touch world_up "/watched/notes.txt" 999%Z) notes_event
              state_notes_indexed
    = (Ok tt, state_notes_indexed).
Proof.
  destruct (unchanged_content_not_reindexed world_up notes_event
              state_notes_indexed "0cc175b9c0f1b6a831c399e269772661" 100%Z)
    as ((_ & H1) & H2 & _).
  - reflexivity.
  - vm_compute. reflexivity.
  - vm_compute. reflexivity.
  - split; [exact H1|exact (proj2 (H2 999%Z))].
Defined.

(** ** The size limit *)

(** C8. A file larger than 50 MiB is rejected on its size: [open_file]
    returns [None] whatever the extension and whatever the parsers would
    do with the file, and the indexing step gives up without a call. *)
Theorem oversized_file_rejected :
  forall w path f,
    fs w path = RegularFile f ->
    (st_size f > 50 * 1024 * 1024)%Z ->
    open_file w path = Ok None /\
    (forall l, open_file (with_lib w l) path = Ok None) /\
    (forall s, add_to_vector_db w path s = (Ok false, s)).
Proof.
  intros w path f Hf Hsize.
  assert (Hopen : forall l, open_file (with_lib w l) path = Ok None).
  { intros l. unfold open_file, with_lib. cbn [fs]. rewrite Hf.
    assert ((st_size f >? max_size)%Z = true) as ->; [|done].
    apply Z.gtb_lt. unfold max_size. lia. }
  assert (Hw : open_file w path = Ok None).
  { specialize (Hopen (lib w)). by destruct w. }
  split; [done|]. split; [done|].
  intros s. by rewrite add_to_vector_db_unfold, Hw.
Qed.

Lemma oversized_file_rejected_witness :
  open_file world_up "/watched/large.txt" = Ok None /\
  add_to_vector_db world_up "/watched/large.txt" state_empty
    = (Ok false, state_empty).
Proof.
  destruct (oversized_file_rejected world_up "/watched/large.txt" file_large)
    as (H1 & _ & H2).
  - reflexivity.
  - cbn. lia.
  - split; [exact H1|apply H2].
Defined.

(** ** Deletion *)

(** C6. Deleting a record succeeds whether or not the record exists,
    twice is the same as once, and on an absent path nothing changes.  A
    Deleted event returns normally with the record gone, whether or not a
    record existed, and sends one delete to the collection: when the
    collection takes it the index is left without the path, and when the
    collection raises, the error is caught and the index is left as it
    was, the entry of the path included. *)
Theorem delete_is_total_and_idempotent :
  forall w ev s,
    is_directory ev = false ->
    let path := src_path ev in
    let s1 := snd (delete_file_record path s) in
    let s' := snd (on_deleted w ev s) in
    (fst (delete_file_record path s) = Ok tt /\ untracked s1 path) /\
    delete_file_record path s1 = (Ok tt, s1) /\
    (untracked s path -> delete_file_record path s = (Ok tt, s)) /\
    (fst (on_deleted w ev s) = Ok tt /\
     untracked s' path /\
     files s' = delete path (files s) /\
     calls s' = (calls s ++ [CollectionDelete path])%list /\
     (delete_fails w path = false ->
      collection s' = delete path (collection s) /\
      collection s' !! path = None) /\
     (delete_fails w path = true -> collection s' = collection s)).
Proof.
  intros w ev s Hdir path s1 s'. subst s1 s' path.
  unfold delete_file_record, untracked. cbn [fst snd files].
  split; [split; [done|apply lookup_delete_eq]|].
  split; [by rewrite delete_delete_eq|].
  split; [intros Habs; rewrite (delete_id _ _ Habs); by destruct s|].
  unfold on_deleted. rewrite Hdir. cbn [negb].
  unfold bind, delete_file_record, delete_from_vector_db, catch,
    collection_delete, bind, record_call, lift.
  destruct (delete_fails w (src_path ev)); cbn.
  - split; [done|]. split; [apply lookup_delete_eq|].
    split; [done|]. split; [done|]. split; [discriminate|done].
  - split; [done|]. split; [apply lookup_delete_eq|].
    split; [done|]. split; [done|]. split; [|discriminate].
    intros _. split; [done|apply lookup_delete_eq].
Qed.

Lemma delete_is_total_and_idempotent_witness :
  (files state_notes_indexed !! "/watched/notes.txt" <> None /\
   collection state_notes_indexed !! "/watched/notes.txt" <> None /\
   fst (on_deleted world_up notes_event state_notes_indexed) = Ok tt /\
   untracked (snd (on_deleted world_up notes_event state_notes_indexed))
             "/watched/notes.txt" /\
   collection (snd (on_deleted world_up notes_event state_notes_indexed))
     !! "/watched/notes.txt" = None) /\
  (delete_file_record "/watched/never_seen.txt" state_empty
     = (Ok tt, state_empty) /\
   fst (on_deleted world_up unseen_event state_empty) = Ok tt /\
   untracked (snd (on_deleted world_up unseen_event state_empty))
             "/watched/never_seen.txt" /\
   collection (snd (on_deleted world_up unseen_event state_empty))
     !! "/watched/never_seen.txt" = None) /\
  collection (snd (on_deleted world_delete_refused notes_event
                     state_notes_indexed))
    = collection state_notes_indexed.
Proof.
  split; [|split].
  - destruct (delete_is_total_and_idempotent world_up notes_event
                state_notes_indexed eq_refl)
      as (_ & _ & _ & Hret & Hrec & _ & _ & Hidx & _).
    split; [by vm_compute|]. split; [by vm_compute|].
    split; [exact Hret|]. split; [exact Hrec|].
    exact (proj2 (Hidx eq_refl)).
  - destruct (delete_is_total_and_idempotent world_up unseen_event state_empty
                eq_refl)
      as (_ & _ & Habsent & Hret & Hrec & _ & _ & Hidx & _).
    split; [apply Habsent; reflexivity|].
    split; [exact Hret|]. split; [exact Hrec|].
    exact (proj2 (Hidx eq_refl)).
  - destruct (delete_is_total_and_idempotent world_delete_refused notes_event
                state_notes_indexed eq_refl)
      as (_ & _ & _ & _ & _ & _ & _ & _ & Hkept).
    exact (Hkept eq_refl).
Defined.

(** C6, counterexample.  The note is tracked and indexed; at its Deleted
    event the collection refuses the delete.  The callback returns
    normally and the record is gone, but the entry of the note is still
    in the index. *)
Lemma deleted_event_leaves_entry :
  tracked state_notes_indexed "/watched/notes.txt"
          "0cc175b9c0f1b6a831c399e269772661" /\
  fst (on_deleted world_delete_refused notes_event state_notes_indexed)
    = Ok tt /\
  untracked (snd (on_deleted world_delete_refused notes_event
                    state_notes_indexed)) "/watched/notes.txt" /\
  (exists values,
     collection (snd (on_deleted world_delete_refused notes_event
                        state_notes_indexed)) !! "/watched/notes.txt"
       = Some {| document := "a"; metadata_source := "/watched/notes.txt";
                 embedding_values := values |}) /\
  ~ deleted_event_removes_entry.
Proof.
  assert (Hkept :
    collection (snd (on_deleted world_delete_refused notes_event
                       state_notes_indexed)) !! "/watched/notes.txt"
      = Some {| document := "a"; metadata_source := "/watched/notes.txt";
                embedding_values := [0%Z] |}).
  { by vm_compute. }
  split; [exists 100%Z; by vm_compute|].
  split; [by vm_compute|]. split; [by vm_compute|].
  split; [by eexists|].
  intros Hclaim.
  destruct (Hclaim world_delete_refused notes_event state_notes_indexed eq_refl)
    as (_ & _ & Hgone).
  cbn [src_path notes_event file_event] in Hgone.
  rewrite Hkept in Hgone. discriminate Hgone.
Qed.

(** ** Empty files *)

Lemma process_event_type w path t1 t2 s :
  process w path t1 s = process w path t2 s.
Proof. reflexivity. Qed.

Lemma open_file_empty w path f :
  fs w path = RegularFile f -> st_size f = 0%Z ->
  open_file w path = Ok (Some "").
Proof. intros Hf Hsize. unfold open_file. by rewrite Hf, Hsize. Qed.

(** C10. For a zero-byte file a Created or Modified event leaves the path
    tracked with the hash of the empty content, and the index and the
    calls made as they were: extraction returns the empty string, on
    which the indexing step returns [False] before any call.  So a path
    that was not in the index stays out of it, and a path that was in it
    keeps the entry it had.  Every later Created or Modified event that
    finds the file empty, whatever its modification time and whatever
    the services do by then, is skipped as unchanged, so no number of
    events changes the index. *)
Theorem empty_file_tracked_never_indexed :
  forall w ev s f,
    is_directory ev = false ->
    fs w (src_path ev) = RegularFile f ->
    st_size f = 0%Z -> data f = [] ->
    can_open f = true -> read_fault f = None ->
    let path := src_path ev in
    let s1 := snd (on_modified w ev s) in
    open_file w path = Ok (Some "") /\
    (forall s0, add_to_vector_db w path s0 = (Ok false, s0)) /\
    on_created w ev s = on_modified w ev s /\
    fst (on_modified w ev s) = Ok tt /\
    tracked s1 path "d41d8cd98f00b204e9800998ecf8427e" /\
    (stale s path "d41d8cd98f00b204e9800998ecf8427e" ->
     files s1 !! path = Some (st_mtime f, "d41d8cd98f00b204e9800998ecf8427e")) /\
    collection s1 = collection s /\ calls s1 = calls s /\
    on_modified w ev s1 = (Ok tt, s1) /\
    on_created w ev s1 = (Ok tt, s1) /\
    (forall w', readable w' path [] ->
       on_modified w' ev s1 = (Ok tt, s1) /\
       on_created w' ev s1 = (Ok tt, s1)) /\
    (forall n, collection (Nat.iter n (fun s0 => snd (on_modified w ev s0)) s)
               = collection s) /\
    (collection s !! path = None ->
     forall n, collection (Nat.iter n (fun s0 => snd (on_modified w ev s0)) s)
                 !! path = None).
Proof.
  intros w ev s f Hdir Hf Hsize Hdata Hopen Hfault path s1.
  subst s1 path. set (path := src_path ev).
  assert (Hh : compute_file_hash w path = Some "d41d8cd98f00b204e9800998ecf8427e").
  { rewrite (compute_file_hash_readable w path []); [by rewrite md5_empty|].
    exists f. by repeat split. }
  assert (Htext : open_file w path = Ok (Some "")) by (by eapply open_file_empty).
  assert (Hadd : forall s0, add_to_vector_db w path s0 = (Ok false, s0)).
  { intros s0. by rewrite add_to_vector_db_unfold, Htext. }
  assert (Hstep : forall s0,
    fst (process w path "modified" s0) = Ok tt /\
    tracked (snd (process w path "modified" s0)) path
            "d41d8cd98f00b204e9800998ecf8427e" /\
    (stale s0 path "d41d8cd98f00b204e9800998ecf8427e" ->
     files (snd (process w path "modified" s0)) !! path
       = Some (st_mtime f, "d41d8cd98f00b204e9800998ecf8427e")) /\
    collection (snd (process w path "modified" s0)) = collection s0 /\
    calls (snd (process w path "modified" s0)) = calls s0).
  { intros s0.
    destruct (stale_cases s0 path "d41d8cd98f00b204e9800998ecf8427e")
      as [Hstale|[lm Hrec]].
    - rewrite (process_changed w _ _ _ f _ Hf Hh Hstale), bind_ret_tt, Hadd.
      cbn. split; [done|]. split; [eexists; apply lookup_insert_eq|].
      split; [intros _; apply lookup_insert_eq|done].
    - rewrite (process_unchanged _ _ _ _ _ lm Hh Hrec). cbn.
      split; [done|]. split; [by exists lm|]. split; [|done].
      unfold stale. by rewrite Hrec. }
  unfold on_created, on_modified. rewrite Hdir. cbn [negb]. fold path.
  destruct (Hstep s) as (Hret & [m Htr] & Hnew & Hcoll & Hcalls).
  split; [done|]. split; [done|]. split; [done|]. split; [done|].
  split; [by exists m|]. split; [done|]. split; [done|]. split; [done|].
  split; [by apply (process_unchanged _ _ _ _ _ m Hh)|].
  split; [by apply (process_unchanged _ _ _ _ _ m Hh)|].
  split.
  { intros w' Hread.
    assert (Hh' : compute_file_hash w' path
                  = Some "d41d8cd98f00b204e9800998ecf8427e").
    { by rewrite (compute_file_hash_readable w' path []), md5_empty. }
    split; by apply (process_unchanged _ _ _ _ _ m Hh'). }
  assert (Hiter : forall n,
    collection (Nat.iter n (fun s0 => snd (process w path "modified" s0)) s)
      = collection s).
  { induction n as [|n IH]; [done|].
    rewrite Nat.iter_succ.
    destruct (Hstep (Nat.iter n (fun s0 => snd (process w path "modified" s0)) s))
      as (_ & _ & _ & Hc & _).
    by rewrite Hc. }
  split; [done|]. intros Habsent n. by rewrite Hiter.
Qed.

Lemma empty_file_tracked_never_indexed_witness :
  (open_file world_up "/watched/empty.txt" = Ok (Some "") /\
   files (snd (on_modified world_up empty_event state_empty))
     !! "/watched/empty.txt"
     = Some (7%Z, "d41d8cd98f00b204e9800998ecf8427e") /\
   collection (snd (on_modified world_up empty_event state_empty)) = ∅ /\
   calls (snd (on_modified world_up empty_event state_empty)) = [] /\
   os_path_getmtime world_empty_touched "/watched/empty.txt" = Ok 99%Z /\
   on_modified world_empty_touched empty_event
               (snd (on_modified world_up empty_event state_empty))
     = (Ok tt, snd (on_modified world_up empty_event state_empty))) /\
  (files (snd (on_modified (world_notes_truncated 150%Z) notes_event
                 state_notes_indexed)) !! "/watched/notes.txt"
     = Some (150%Z, "d41d8cd98f00b204e9800998ecf8427e") /\
   collection (snd (on_modified (world_notes_truncated 150%Z) notes_event
                      state_notes_indexed))
     = collection state_notes_indexed /\
   on_created (world_notes_truncated 175%Z) notes_event
              (snd (on_modified (world_notes_truncated 150%Z) notes_event
                      state_notes_indexed))
     = (Ok tt, snd (on_modified (world_notes_truncated 150%Z) notes_event
                      state_notes_indexed))).
Proof.
  split.
  - destruct (empty_file_tracked_never_indexed world_up empty_event state_empty
                file_empty)
      as (Htext & _ & _ & _ & _ & Hnew & Hcoll & Hcalls & _ & _ & Hlater & _);
      try reflexivity.
    split; [exact Htext|]. split; [exact (Hnew I)|].
    split; [exact Hcoll|]. split; [exact Hcalls|].
    split; [reflexivity|].
    apply Hlater. eexists. by repeat split.
  - destruct (empty_file_tracked_never_indexed (world_notes_truncated 150%Z)
                notes_event state_notes_indexed (file_truncated 150%Z))
      as (_ & _ & _ & _ & _ & Hnew & Hcoll & _ & _ & _ & Hlater & _);
      try reflexivity.
    split; [apply Hnew; by vm_compute|]. split; [exact Hcoll|].
    apply Hlater. exists (file_truncated 175%Z). by repeat split.
Defined.

(** C10, counterexample.  The note was indexed when it held one byte and
    is then truncated to none.  Its Modified event (and its Created
    event, which does the same) writes the record with the hash of the
    empty content, and the entry made from the old text is still in the
    index. *)
Lemma truncated_file_keeps_entry :
  fs (world_notes_truncated 150%Z) "/watched/notes.txt"
    = RegularFile (file_truncated 150%Z) /\
  tracked (snd (on_modified (world_notes_truncated 150%Z) notes_event
                  state_notes_indexed))
          "/watched/notes.txt" "d41d8cd98f00b204e9800998ecf8427e" /\
  (exists values,
     collection (snd (on_modified (world_notes_truncated 150%Z) notes_event
                        state_notes_indexed)) !! "/watched/notes.txt"
       = Some {| document := "a"; metadata_source := "/watched/notes.txt";
                 embedding_values := values |}) /\
  on_created (world_notes_truncated 150%Z) notes_event state_notes_indexed
    = on_modified (world_notes_truncated 150%Z) notes_event
                  state_notes_indexed /\
  ~ empty_file_absent_from_index.
Proof.
  assert (Hkept :
    collection (snd (on_modified (world_notes_truncated 150%Z) notes_event
                       state_notes_indexed)) !! "/watched/notes.txt"
      = Some {| document := "a"; metadata_source := "/watched/notes.txt";
                embedding_values := [0%Z] |}).
  { by vm_compute. }
  split; [reflexivity|].
  split; [exists 150%Z; by vm_compute|].
  split; [by eexists|]. split; [reflexivity|].
  intros Hclaim.
  destruct (Hclaim (world_notes_truncated 150%Z) notes_event
              state_notes_indexed (file_truncated 150%Z)
              eq_refl eq_refl eq_refl eq_refl eq_refl eq_refl
              _ (or_intror eq_refl))
    as (_ & Hgone).
  cbn [src_path notes_event file_event] in Hgone.
  rewrite Hkept in Hgone. discriminate Hgone.
Qed.

(** ** Order of the two writes *)

(** C1, counterexample.  With the embedding service down, the Created
    event of a new note fails to index it and still writes its record. *)
Lemma record_written_despite_failed_index :
  reaches_indexing world_down "/watched/notes.txt" state_empty /\
  index_mutation_fails world_down "/watched/notes.txt" /\
  files state_empty !! "/watched/notes.txt" = None /\
  files (snd (process world_down "/watched/notes.txt" "created" state_empty))
    !! "/watched/notes.txt"
    = Some (100%Z, "0cc175b9c0f1b6a831c399e269772661") /\
  collection (snd (process world_down "/watched/notes.txt" "created" state_empty))
    = ∅ /\
  ~ record_written_only_after_index.
Proof.
  assert (Hreach : reaches_indexing world_down "/watched/notes.txt" state_empty).
  { exists "0cc175b9c0f1b6a831c399e269772661". split; [by vm_compute|exact I]. }
  assert (Hfail : index_mutation_fails world_down "/watched/notes.txt").
  { intros s. rewrite add_to_vector_db_unfold. by cbn. }
  assert (Hrec : files (snd (process world_down "/watched/notes.txt" "created"
                               state_empty)) !! "/watched/notes.txt"
                 = Some (100%Z, "0cc175b9c0f1b6a831c399e269772661")).
  { by vm_compute. }
  split; [done|]. split; [done|]. split; [done|]. split; [done|].
  split; [by vm_compute|].
  intros Hclaim.
  specialize (Hclaim world_down "/watched/notes.txt" "created" state_empty Hreach Hfail).
  pose proof (eq_trans (eq_sym Hclaim) Hrec) as Habs.
  vm_compute in Habs. discriminate.
Qed.

(** C1, amended.  When processing reaches the indexing step the record is
    written first and the indexing step runs in the state that already
    holds it: the record carries the new modification time and hash
    whether or not extraction, embedding and the add succeed, and a
    failed index mutation leaves the index as it was. *)
Theorem record_written_before_index :
  forall w path event_type s f h,
    fs w path = RegularFile f ->
    compute_file_hash w path = Some h ->
    stale s path h ->
    let s0 := record_written path (st_mtime f) h s in
    let s' := snd (process w path event_type s) in
    process w path event_type s
      = bind (add_to_vector_db w path) (fun _ => ret tt) s0 /\
    files s' = <[path := (st_mtime f, h)]> (files s) /\
    (index_mutation_fails w path -> collection s' = collection s).
Proof.
  intros w path event_type s f h Hf Hh Hstale s0 s'. subst s0 s'.
  rewrite (process_changed w _ _ _ f h Hf Hh Hstale), bind_ret_tt.
  cbn [snd].
  destruct (add_to_vector_db_cases w path (record_written path (st_mtime f) h s))
    as (Hfiles & Hcases).
  split; [done|]. split; [by rewrite Hfiles|].
  intros Hfail. destruct Hcases as [[Hok _]|(_ & Hcoll & _)]; [|done].
  by destruct (Hfail _ Hok).
Qed.

Lemma record_written_before_index_witness :
  files (snd (process world_down "/watched/notes.txt" "created" state_empty))
    = <[ "/watched/notes.txt" :=
           (100%Z, "0cc175b9c0f1b6a831c399e269772661") ]> ∅ /\
  collection (snd (process world_down "/watched/notes.txt" "created" state_empty))
    = ∅.
Proof.
  destruct (record_written_before_index world_down "/watched/notes.txt" "created"
              state_empty (file_a 100%Z) "0cc175b9c0f1b6a831c399e269772661")
    as (_ & Hfiles & Hcoll).
  - reflexivity.
  - vm_compute. reflexivity.
  - exact I.
  - split; [exact Hfiles|]. apply Hcoll.
    intros s. rewrite add_to_vector_db_unfold. cbn. discriminate.
Defined.

(** ** Repeated events *)

(** C3, counterexample.  A file truncated to zero bytes: both runs make no
    index call at all. *)
Lemma empty_file_modified_twice :
  add_calls (modified_twice world_up empty_event state_empty) = 0 /\
  ~ exactly_one_upsert.
Proof.
  assert (H0 : add_calls (modified_twice world_up empty_event state_empty) = 0)
    by (by vm_compute).
  split; [done|]. intros Hclaim.
  specialize (Hclaim world_up empty_event state_empty eq_refl).
  rewrite H0 in Hclaim. discriminate.
Qed.

Lemma process_twice w path t1 t2 s :
  process w path t2 (snd (process w path t1 s))
    = (Ok tt, snd (process w path t1 s)).
Proof.
  destruct (compute_file_hash w path) as [h|] eqn:Hh.
  2: { by rewrite !process_unhashable. }
  destruct (compute_file_hash_Some _ _ _ Hh) as [f Hf].
  destruct (stale_cases s path h) as [Hstale|[lm Hrec]].
  - apply (process_unchanged _ _ _ _ h (st_mtime f) Hh).
    rewrite (process_changed w _ _ _ f h Hf Hh Hstale), bind_ret_tt. cbn [snd].
    rewrite (proj1 (add_to_vector_db_cases _ _ _)). apply lookup_insert_eq.
  - rewrite (process_unchanged _ _ t1 _ h lm Hh Hrec). cbn [snd].
    by apply (process_unchanged _ _ _ _ h lm).
Qed.

Lemma process_add_calls w path event_type s :
  add_calls s <= add_calls (snd (process w path event_type s)) <= add_calls s + 1.
Proof.
  destruct (compute_file_hash w path) as [h|] eqn:Hh.
  2: { rewrite process_unhashable by done. cbn. lia. }
  destruct (compute_file_hash_Some _ _ _ Hh) as [f Hf].
  destruct (stale_cases s path h) as [Hstale|[lm Hrec]].
  - rewrite (process_changed w _ _ _ f h Hf Hh Hstale), bind_ret_tt. cbn [snd].
    set (s0 := record_written path (st_mtime f) h s).
    change (add_calls s) with (add_calls s0).
    rewrite add_to_vector_db_unfold.
    destruct (open_file w path) as [text|e]; [|cbn; lia].
    destruct (truthy_text text) as [t|]; [|cbn; lia]. cbv zeta.
    unfold add_calls.
    destruct (embed_content w t) as [[|v vs]|e]; cbn [snd calls];
      [rewrite count_calls_app; cbn; lia| |rewrite count_calls_app; cbn; lia].
    destruct (add_fails w path); cbn [snd calls];
      rewrite !count_calls_app; cbn; lia.
  - rewrite (process_unchanged _ _ _ _ h lm Hh Hrec). cbn. lia.
Qed.

(** C3, amended.  Processing the same Modified event twice with the file
    system unchanged makes at most one index upsert call in total, and
    exactly one when the first run reaches the indexing step and
    extraction, embedding and the add succeed; in every case the second
    run returns normally and changes neither store nor makes a call. *)
Theorem repeated_event_is_noop :
  forall w ev s,
    let s1 := snd (on_modified w ev s) in
    on_modified w ev s1 = (Ok tt, s1) /\
    modified_twice w ev s = s1 /\
    add_calls s <= add_calls (modified_twice w ev s) <= add_calls s + 1 /\
    (is_directory ev = false ->
     reaches_indexing w (src_path ev) s ->
     (forall s0, fst (add_to_vector_db w (src_path ev) s0) = Ok true) ->
     add_calls (modified_twice w ev s) = add_calls s + 1).
Proof.
  intros w ev s s1. subst s1. unfold modified_twice, on_modified.
  destruct (is_directory ev) eqn:Hdir; cbn [negb].
  { cbn. repeat split; [lia|lia|discriminate]. }
  rewrite process_twice. cbn [snd].
  split; [done|]. split; [done|]. split; [apply process_add_calls|].
  intros _ (h & Hh & Hstale) Hok.
  destruct (compute_file_hash_Some _ _ _ Hh) as [f Hf].
  rewrite (process_changed w _ _ _ f h Hf Hh Hstale), bind_ret_tt. cbn [snd].
  destruct (add_to_vector_db_cases w (src_path ev)
              (record_written (src_path ev) (st_mtime f) h s))
    as (_ & [[_ Hidx]|[Hnot _]]).
  - by rewrite (indexed_add_calls _ _ _ _ Hidx).
  - by destruct (Hnot (Hok _)).
Qed.

Lemma repeated_event_is_noop_witness :
  on_modified world_up notes_event (snd (on_modified world_up notes_event state_empty))
    = (Ok tt, snd (on_modified world_up notes_event state_empty)) /\
  add_calls (modified_twice world_up notes_event state_empty) = 1.
Proof.
  destruct (repeated_event_is_noop world_up notes_event state_empty)
    as (Hnoop & _ & _ & Hone).
  split; [exact Hnoop|]. apply Hone.
  - reflexivity.
  - exists "0cc175b9c0f1b6a831c399e269772661". split; [by vm_compute|exact I].
  - intros s0. rewrite add_to_vector_db_unfold. reflexivity.
Defined.

(** ** Moves *)

(** C5, counterexample.  The destination is gone again when the event is
    processed: the policy skips it and the destination stays untracked. *)
Lemma move_to_vanished_destination :
  os_path_exists world_up "/watched/gone.txt" = false /\
  untracked (snd (on_moved world_up notes_to_gone state_notes_indexed))
            "/watched/gone.txt" /\
  ~ move_leaves_destination_tracked.
Proof.
  split; [reflexivity|]. split; [by vm_compute|].
  intros Hclaim.
  destruct (Hclaim world_up notes_to_gone state_notes_indexed eq_refl)
    as (_ & _ & bytes & (f & Hf & _) & _).
  discriminate Hf.
Qed.

Lemma delete_from_vector_db_unfold w path s :
  delete_from_vector_db w path s =
  (Ok tt,
   {| files := files s;
      collection := if delete_fails w path then collection s
                    else delete path (collection s);
      calls := (calls s ++ [CollectionDelete path])%list |}).
Proof.
  unfold delete_from_vector_db, catch, collection_delete, bind, record_call, lift.
  by destruct (delete_fails w path).
Qed.

Lemma process_tracks w path event_type s h :
  compute_file_hash w path = Some h ->
  tracked (snd (process w path event_type s)) path h.
Proof.
  intros Hh. destruct (compute_file_hash_Some _ _ _ Hh) as [f Hf].
  destruct (stale_cases s path h) as [Hstale|[lm Hrec]].
  - rewrite (process_changed w _ _ _ f h Hf Hh Hstale), bind_ret_tt. cbn [snd].
    exists (st_mtime f).
    rewrite (proj1 (add_to_vector_db_cases _ _ _)). apply lookup_insert_eq.
  - rewrite (process_unchanged _ _ _ _ h lm Hh Hrec). by exists lm.
Qed.

(** [process] writes at its own path only. *)
Lemma process_other_paths w path event_type s q :
  q <> path ->
  files (snd (process w path event_type s)) !! q = files s !! q /\
  collection (snd (process w path event_type s)) !! q = collection s !! q.
Proof.
  intros Hq.
  destruct (compute_file_hash w path) as [h|] eqn:Hh.
  2: { by rewrite process_unhashable. }
  destruct (compute_file_hash_Some _ _ _ Hh) as [f Hf].
  destruct (stale_cases s path h) as [Hstale|[lm Hrec]].
  - rewrite (process_changed w _ _ _ f h Hf Hh Hstale), bind_ret_tt. cbn [snd].
    destruct (add_to_vector_db_cases w path (record_written path (st_mtime f) h s))
      as (Hfiles & Hcases).
    rewrite Hfiles. cbn [record_written files].
    split; [by rewrite lookup_insert_ne|].
    destruct Hcases as [[_ (t & v & _ & _ & _ & _ & _ & _ & Hcoll & _)]
                       |(_ & Hcoll & _)]; rewrite Hcoll; cbn [collection record_written];
      [by rewrite add_entry_lookup_ne|done].
  - by rewrite (process_unchanged _ _ _ _ h lm Hh Hrec).
Qed.

(** C5, amended.  A Moved file event deletes the record of the source,
    sends the delete of the source entry to the index, then runs the
    Created/Modified policy on the destination.  With distinct paths the
    source ends untracked, and out of the index once the collection has
    taken the delete.  A destination that can be hashed ends tracked with
    the hash of its bytes; one that is gone or unreadable is left as the
    two deletes left it. *)
Theorem move_reindexes_destination :
  forall w ev s,
    is_directory ev = false ->
    let src := src_path ev in
    let dest := dest_path ev in
    let s' := snd (on_moved w ev s) in
    on_moved w ev s = process w dest "moved" (source_removed w src s) /\
    (src <> dest -> untracked s' src) /\
    (src <> dest -> delete_fails w src = false -> collection s' !! src = None) /\
    (forall bytes, readable w dest bytes -> tracked s' dest (Md5.hexdigest bytes)) /\
    (os_path_exists w dest = false \/ compute_file_hash w dest = None ->
     on_moved w ev s = (Ok tt, source_removed w src s)).
Proof.
  intros w ev s Hdir src dest s'. subst s'.
  assert (Hseq : on_moved w ev s = process w dest "moved" (source_removed w src s)).
  { unfold on_moved, source_removed, bind, delete_file_record.
    rewrite Hdir. cbn [negb snd]. fold src dest.
    by rewrite !delete_from_vector_db_unfold. }
  rewrite Hseq. split; [done|].
  unfold source_removed. rewrite delete_from_vector_db_unfold.
  unfold delete_file_record. cbn [snd files collection].
  split; [|split; [|split]].
  - intros Hne. unfold untracked.
    rewrite (proj1 (process_other_paths _ _ _ _ src Hne)). apply lookup_delete_eq.
  - intros Hne Hdel.
    rewrite (proj2 (process_other_paths _ _ _ _ src Hne)). cbn [collection].
    rewrite Hdel. apply lookup_delete_eq.
  - intros bytes Hread. apply process_tracks.
    by apply compute_file_hash_readable.
  - intros [Hgone|Hhash].
    + by rewrite process_missing.
    + by rewrite process_unhashable.
Qed.

Lemma move_reindexes_destination_witness :
  untracked (snd (on_moved world_up notes_to_copy state_notes_indexed))
            "/watched/notes.txt" /\
  collection (snd (on_moved world_up notes_to_copy state_notes_indexed))
    !! "/watched/notes.txt" = None /\
  tracked (snd (on_moved world_up notes_to_copy state_notes_indexed))
          "/watched/copy.txt" "0cc175b9c0f1b6a831c399e269772661" /\
  on_moved world_up notes_to_gone state_notes_indexed
    = (Ok tt, source_removed world_up "/watched/notes.txt" state_notes_indexed).
Proof.
  destruct (move_reindexes_destination world_up notes_to_copy
              state_notes_indexed eq_refl)
    as (_ & Hsrc & Hidx & Hdest & _).
  destruct (move_reindexes_destination world_up notes_to_gone
              state_notes_indexed eq_refl)
    as (_ & _ & _ & _ & Hgone).
  split; [apply Hsrc; discriminate|].
  split; [apply Hidx; [discriminate|reflexivity]|].
  split.
  - rewrite <- md5_a. apply Hdest.
    exists (file_a 200%Z). repeat split; reflexivity.
  - apply Hgone. left. reflexivity.
Defined.

(** ** Extraction failures *)


Lemma os_path_basename_raises file_path :
  os_path_basename file_path = Raise (NameError "os").
Proof. reflexivity. Qed.

Lemma read_odt_failure w file_path e :
  odt_texts (lib w) file_path = Raise e ->
  _read_odt w file_path = Raise (NameError "os").
Proof. intros H. unfold _read_odt. by rewrite H. Qed.

Lemma read_pdf_raises w file_path :
  _read_pdf w file_path = Raise (NameError "fitz").
Proof. reflexivity. Qed.

Lemma read_docx_raises w file_path :
  _read_docx w file_path = Raise (NameError "docx2txt").
Proof. reflexivity. Qed.

Lemma read_image_raises w file_path :
  _read_image w file_path = Raise (NameError "os").
Proof. reflexivity. Qed.

Lemma read_archive_raises w file_path :
  _read_archive w file_path = Raise (NameError "os").
Proof.
  unfold _read_archive.
  destruct (endswith file_path ".zip").
  { by destruct (zip_namelist (lib w) file_path). }
  destruct (endswith file_path ".tar" || endswith file_path ".tar.gz"
            || endswith file_path ".tgz"); [|done].
  by destruct (tar_getnames (lib w) file_path).
Qed.

(** A file of a size that is extracted and of an extension without a
    handler: the MIME type lookup fails on the name [mimetypes]. *)
Lemma unknown_extension_no_text w path f :
  fs w path = RegularFile f ->
  (0 < st_size f <= max_size)%Z ->
  handlers (lower (suffix path)) = None ->
  open_file w path = Ok None.
Proof.
  intros Hf [Hpos Hmax] Hext. unfold open_file, dispatch. rewrite Hf, Hext.
  assert ((st_size f >? max_size)%Z = false) as -> by lia.
  assert ((st_size f =? 0)%Z = false) as -> by lia.
  reflexivity.
Qed.

(** C4, at the failing input.  A letter whose ODT parse fails: the handler
    catches the parser's error and then fails itself on the name [os]
    while building the placeholder; [open_file] turns that into [None],
    the indexing step returns [False], and the path is left with a record
    and no index entry.  A PDF gets no text either. *)
Theorem failed_extraction_gets_no_placeholder :
  odt_texts (lib world_up) "/watched/letter.odt" = Raise OtherError /\
  _read_odt world_up "/watched/letter.odt" = Raise (NameError "os") /\
  open_file world_up "/watched/letter.odt" = Ok None /\
  add_to_vector_db world_up "/watched/letter.odt" state_empty
    = (Ok false, state_empty) /\
  fst (on_created world_up letter_event state_empty) = Ok tt /\
  collection (snd (on_created world_up letter_event state_empty))
    !! "/watched/letter.odt" = None /\
  tracked (snd (on_created world_up letter_event state_empty))
          "/watched/letter.odt" "0cc175b9c0f1b6a831c399e269772661" /\
  open_file world_up "/watched/scan.pdf" = Ok None.
Proof.
  split; [reflexivity|]. split; [reflexivity|].
  split; [reflexivity|]. split; [reflexivity|]. split; [by vm_compute|].
  split; [by vm_compute|]. split; [|reflexivity].
  exists 300%Z. by vm_compute.
Qed.

(** ** The text reader *)

Lemma try_encodings_skip w path pre rest :
  Forall (undecodable w path) pre ->
  try_encodings w path (pre ++ rest)%list = try_encodings w path rest.
Proof.
  induction 1 as [|enc pre Henc _ IH]; [done|].
  cbn [app try_encodings]. unfold undecodable in Henc. by rewrite Henc.
Qed.

Lemma open_file_dispatched w path h :
  dispatched_to w path h ->
  open_file w path = as_optional (call_handler w h path).
Proof.
  intros (f & Hf & Hne & Hmax & Hh). unfold open_file, dispatch.
  rewrite Hf, Hh.
  assert ((st_size f >? max_size)%Z = false) as -> by lia.
  assert ((st_size f =? 0)%Z = false) as -> by lia.
  by destruct (call_handler w h path).
Qed.

(** X1. The text reader tries the detected encoding, then utf-8, latin-1
    and cp1252, in that order: the first attempt that decodes gives the
    text, attempts that fail to decode are passed over, and when all four
    fail to decode the file is read as bytes and decoded leniently.  The
    detected encoding is utf-8 when chardet raises or reports nothing. *)
Theorem text_reader_tries_encodings_in_order :
  forall w path,
    let encodings := [_detect_encoding w path; "utf-8"; "latin-1"; "cp1252"] in
    (forall pre enc post text,
        encodings = (pre ++ enc :: post)%list ->
        Forall (undecodable w path) pre ->
        open_read (lib w) path enc = Ok text ->
        _read_text_file w path = Ok text) /\
    (Forall (undecodable w path) encodings ->
     _read_text_file w path = read_decode_ignore (lib w) path) /\
    (_detect_encoding w path <> "") /\
    ((forall enc, chardet_detect (lib w) path <> Ok (Some enc)) ->
     _detect_encoding w path = "utf-8").
Proof.
  intros w path encodings. subst encodings. unfold _read_text_file.
  split; [|split; [|split]].
  - intros pre enc post text -> Hpre Hok.
    rewrite try_encodings_skip by done. cbn [try_encodings]. by rewrite Hok.
  - intros Hall.
    rewrite <- (app_nil_r [_; _; _; _]).
    by rewrite try_encodings_skip.
  - unfold _detect_encoding.
    destruct (chardet_detect (lib w) path) as [[enc|]|e]; try done.
    destruct (String.eqb enc "") eqn:Henc; [done|].
    by apply String.eqb_neq.
  - intros Hnone. unfold _detect_encoding.
    destruct (chardet_detect (lib w) path) as [[enc|]|e]; try done.
    by destruct (Hnone enc).
Qed.

Lemma text_reader_tries_encodings_in_order_witness :
  _read_text_file world_latin1 "/docs/README.TXT" = Ok "caf" /\
  _detect_encoding world_latin1 "/docs/README.TXT" = "utf-8".
Proof.
  destruct (text_reader_tries_encodings_in_order world_latin1 "/docs/README.TXT")
    as (Hfirst & _ & _ & Hdefault).
  split.
  - apply (Hfirst ["utf-8"; "utf-8"] "latin-1" ["cp1252"] "caf").
    + reflexivity.
    + repeat constructor.
    + reflexivity.
  - apply Hdefault. intros enc. discriminate.
Defined.

(** X2. An attempt that fails with anything but a decoding error ends the
    text reader with that error: the encodings after it are not tried,
    and a file with a text extension then gives no text.  Such is the
    case when chardet reports an encoding that Python does not know. *)
Theorem text_reader_aborts_on_other_error :
  forall w path pre enc post e,
    [_detect_encoding w path; "utf-8"; "latin-1"; "cp1252"]
      = (pre ++ enc :: post)%list ->
    Forall (undecodable w path) pre ->
    open_read (lib w) path enc = Raise e ->
    e <> UnicodeDecodeError ->
    _read_text_file w path = Raise e /\
    (dispatched_to w path h_read_text_file -> open_file w path = Ok None).
Proof.
  intros w path pre enc post e Hsplit Hpre Hraise Hne.
  assert (Hread : _read_text_file w path = Raise e).
  { unfold _read_text_file. rewrite Hsplit, try_encodings_skip by done.
    cbn [try_encodings]. rewrite Hraise. by destruct e. }
  split; [done|]. intros Hd.
  rewrite (open_file_dispatched _ _ _ Hd). cbn [call_handler]. by rewrite Hread.
Qed.

Lemma text_reader_aborts_on_other_error_witness :
  open_read (lib world_unknown_encoding) "/docs/README.TXT" "utf-8" = Ok "text" /\
  _read_text_file world_unknown_encoding "/docs/README.TXT" = Raise OtherError /\
  open_file world_unknown_encoding "/docs/README.TXT" = Ok None.
Proof.
  destruct (text_reader_aborts_on_other_error world_unknown_encoding
              "/docs/README.TXT" [] "x-unknown" ["utf-8"; "latin-1"; "cp1252"]
              OtherError) as (Hread & Hopen).
  - reflexivity.
  - constructor.
  - reflexivity.
  - discriminate.
  - split; [reflexivity|]. split; [exact Hread|].
    apply Hopen. exists (file_a 1%Z).
    split; [reflexivity|]. split; [discriminate|]. split; [|reflexivity].
    unfold max_size. cbn. lia.
Defined.

(** ** Structured formats *)

(** X3. A JSON file is recovered as plain text only after a JSON syntax
    error: then [open_file] gives what the text reader gives.  After any
    other error of the JSON reader, a decoding error of a file that is
    not UTF-8 among them, [open_file] gives no text and the text reader
    is not consulted. *)
Theorem json_recovered_only_on_syntax_error :
  forall w path,
    dispatched_to w path h_read_json ->
    (forall text, json_load_dumps (lib w) path = Ok text ->
                  open_file w path = Ok (Some text)) /\
    (json_load_dumps (lib w) path = Raise JSONDecodeError ->
     open_file w path = as_optional (_read_text_file w path)) /\
    (forall e, json_load_dumps (lib w) path = Raise e ->
               e <> JSONDecodeError ->
               open_file w path = Ok None).
Proof.
  intros w path Hd. rewrite (open_file_dispatched _ _ _ Hd).
  cbn [call_handler]. unfold _read_json.
  split; [|split].
  - by intros text ->.
  - by intros ->.
  - intros e -> Hne. by destruct e.
Qed.

Lemma json_recovered_only_on_syntax_error_witness :
  open_file world_formats "/docs/data.json" = Ok (Some "a") /\
  _read_text_file world_latin1 "/docs/data.json" = Ok "caf" /\
  open_file world_latin1 "/docs/data.json" = Ok None.
Proof.
  assert (Hd : forall l, dispatched_to (with_lib world_formats l)
                           "/docs/data.json" h_read_json).
  { intros l. exists (file_a 1%Z).
    split; [reflexivity|]. split; [discriminate|]. split; [|reflexivity].
    unfold max_size. cbn. lia. }
  destruct (json_recovered_only_on_syntax_error _ _ (Hd sample_lib))
    as (_ & Hsyntax & _).
  destruct (json_recovered_only_on_syntax_error _ _ (Hd latin1_lib))
    as (_ & _ & Hother).
  split; [exact (Hsyntax eq_refl)|]. split; [reflexivity|].
  apply (Hother UnicodeDecodeError); [reflexivity|discriminate].
Defined.

(** X4. The CSV, TSV, XML and HTML readers never do worse than the text
    reader: when the specialised parser raises, whatever the exception,
    or BeautifulSoup is not installed, [open_file] gives exactly what the
    text reader gives for the file. *)
Theorem structured_readers_fall_back_to_text :
  forall w path,
    let detected := _detect_encoding w path in
    let as_text := as_optional (_read_text_file w path) in
    (dispatched_to w path h_read_csv ->
     (exists e, csv_reader (lib w) path detected "," = Raise e) ->
     open_file w path = as_text) /\
    (dispatched_to w path h_read_tsv ->
     (exists e, csv_reader (lib w) path detected (ascii_of_nat 9) = Raise e) ->
     open_file w path = as_text) /\
    (dispatched_to w path h_read_xml ->
     has_beautifulsoup (lib w) = false \/
       (exists e, soup_get_text (lib w) path detected "xml" = Raise e) ->
     open_file w path = as_text) /\
    (dispatched_to w path h_read_html ->
     has_beautifulsoup (lib w) = false \/
       (exists e, soup_get_text (lib w) path detected "html.parser" = Raise e) ->
     open_file w path = as_text).
Proof.
  intros w path detected as_text. subst detected as_text.
  split; [|split; [|split]]; intros Hd Hfail;
    rewrite (open_file_dispatched _ _ _ Hd); cbn [call_handler];
    unfold _read_csv, _read_tsv, read_delimited, _read_xml, _read_html,
      read_markup.
  - destruct Hfail as [e ->]. reflexivity.
  - destruct Hfail as [e ->]. reflexivity.
  - destruct Hfail as [-> | [e He]]; [done|].
    rewrite He. by destruct (has_beautifulsoup (lib w)).
  - destruct Hfail as [-> | [e He]]; [done|].
    rewrite He. by destruct (has_beautifulsoup (lib w)).
Qed.

Lemma structured_readers_fall_back_to_text_witness :
  open_file world_formats "/docs/table.csv" = Ok (Some "a") /\
  open_file world_formats "/docs/page.html" = Ok (Some "a").
Proof.
  destruct (structured_readers_fall_back_to_text world_formats "/docs/table.csv")
    as (Hcsv & _).
  destruct (structured_readers_fall_back_to_text world_formats "/docs/page.html")
    as (_ & _ & _ & Hhtml).
  split.
  - apply Hcsv; [|by eexists].
    exists (file_a 1%Z).
    split; [reflexivity|]. split; [discriminate|]. split; [|reflexivity].
    unfold max_size. cbn. lia.
  - apply Hhtml; [|right; by eexists].
    exists (file_a 1%Z).
    split; [reflexivity|]. split; [discriminate|]. split; [|reflexivity].
    unfold max_size. cbn. lia.
Defined.

(** The rows the CSV loop renders and the marker it may add. *)
Lemma csv_rows_spec reader : forall i n rows,
  i + n = 1001 ->
  csv_rows i reader rows =
    (rows ++ map (String.concat " | ") (firstn n reader)
          ++ (if (n <? length reader)%nat then ["... (truncated)"] else []))%list.
Proof.
  induction reader as [|row rest IH]; intros i n rows Hin.
  - cbn [csv_rows length]. rewrite firstn_nil.
    assert ((n <? 0)%nat = false) as -> by by apply Nat.ltb_ge, Nat.le_0_l.
    by rewrite !app_nil_r.
  - cbn [csv_rows]. destruct (1000 <? i)%nat eqn:Hi.
    + apply Nat.ltb_lt in Hi. assert (n = 0) as -> by lia.
      reflexivity.
    + apply Nat.ltb_ge in Hi. destruct n as [|n]; [lia|].
      rewrite (IH (S i) n) by lia.
      cbn [firstn map length]. rewrite <- app_assoc. reflexivity.
Qed.

(** X5. The CSV and TSV readers render the first 1001 rows of the file,
    the cells of a row joined by [" | "], and add the item
    ["... (truncated)"] exactly when the file has more rows than that.
    The text is these items joined by newlines: at most 1001 rendered
    rows and the marker, 1002 items in all, and every row of a file of at
    most 1001 rows.  The bound counts rendered rows, not lines of the
    text: a cell is copied as it is, so a cell that holds a newline adds
    a line of its own. *)
Theorem csv_text_truncated_after_1001_rows :
  forall w path delimiter reader,
    csv_reader (lib w) path (_detect_encoding w path) delimiter = Ok reader ->
    let rendered :=
      (map (String.concat " | ") (firstn 1001 reader)
         ++ (if (1001 <? length reader)%nat then ["... (truncated)"] else []))%list in
    read_delimited w delimiter path = Ok (String.concat nl rendered) /\
    length rendered <= 1002 /\
    (length reader <= 1001 -> rendered = map (String.concat " | ") reader) /\
    (1001 < length reader ->
     rendered = (map (String.concat " | ") (firstn 1001 reader)
                   ++ ["... (truncated)"])%list).
Proof.
  intros w path delimiter reader Hreader rendered. subst rendered.
  unfold read_delimited. rewrite Hreader. cbn [rbind try_except].
  rewrite (csv_rows_spec reader 0 1001 []) by reflexivity.
  rewrite app_nil_l. split; [done|]. split; [|split].
  - rewrite length_app, length_map, length_firstn.
    destruct (1001 <? length reader)%nat; cbn [length]; lia.
  - intros Hshort.
    assert ((1001 <? length reader)%nat = false) as -> by by apply Nat.ltb_ge.
    by rewrite firstn_all2, app_nil_r.
  - intros Hlong.
    by assert ((1001 <? length reader)%nat = true) as -> by by apply Nat.ltb_lt.
Qed.

Lemma csv_text_truncated_after_1001_rows_witness :
  _read_csv world_table "/docs/table.csv"
    = Ok (String.concat nl (repeat "x | y" 1001 ++ ["... (truncated)"])%list).
Proof.
  unfold _read_csv.
  rewrite (proj1 (csv_text_truncated_after_1001_rows world_table
                    "/docs/table.csv" "," (repeat ["x"; "y"] 1002) eq_refl)).
  vm_compute. reflexivity.
Defined.

(** ** Formats that give no text *)

Lemma call_handler_name_error w h path :
  h = h_read_docx \/ h = h_read_pdf \/ h = h_read_archive \/ h = h_read_image ->
  exists name, call_handler w h path = Raise (NameError name).
Proof.
  intros [-> | [-> | [-> | ->]]]; cbn [call_handler].
  - by eexists.
  - by eexists.
  - exists "os". apply read_archive_raises.
  - by eexists.
Qed.

(** X6. A file that is not empty and has a DOCX, PDF, archive or image
    extension, or an extension without a handler, never gives text:
    whatever the parsers and the MIME table would answer, the reader
    stops at a name that FileHandler.py does not import, [open_file]
    returns [None], and the indexing step returns [False] without a
    call. *)
Theorem unimported_formats_give_no_text :
  forall w path f,
    fs w path = RegularFile f ->
    st_size f <> 0%Z ->
    In (handlers (lower (suffix path)))
       [Some h_read_docx; Some h_read_pdf; Some h_read_archive;
        Some h_read_image; None] ->
    open_file w path = Ok None /\
    (forall s, add_to_vector_db w path s = (Ok false, s)).
Proof.
  intros w path f Hf Hne Hext.
  assert (Hopen : open_file w path = Ok None).
  { unfold open_file. rewrite Hf.
    destruct (st_size f >? max_size)%Z; [done|].
    assert ((st_size f =? 0)%Z = false) as -> by lia.
    unfold dispatch.
    destruct (handlers (lower (suffix path))) as [h|]; [|reflexivity].
    destruct (call_handler_name_error w h path) as [name ->]; [|done].
    cbn [In] in Hext.
    destruct Hext as [H | [H | [H | [H | [H | []]]]]];
      [injection H as <-; tauto ..|discriminate H]. }
  split; [done|]. intros s. by rewrite add_to_vector_db_unfold, Hopen.
Qed.

Lemma unimported_formats_give_no_text_witness :
  image_to_string (lib world_table) "/docs/photo.png" = Ok "scanned text" /\
  open_file world_table "/docs/photo.png" = Ok None /\
  open_file world_table "/docs/paper.pdf" = Ok None /\
  open_file world_table "/docs/backup.tar.gz" = Ok None /\
  guess_type (lib world_table) "/docs/blob.xyz" = Some "text/plain" /\
  open_file world_table "/docs/blob.xyz" = Ok None.
Proof.
  assert (H : forall p,
    fs world_table p = RegularFile (file_a 1%Z) ->
    In (handlers (lower (suffix p)))
       [Some h_read_docx; Some h_read_pdf; Some h_read_archive;
        Some h_read_image; None] ->
    open_file world_table p = Ok None).
  { intros p Hp Hext.
    by apply (unimported_formats_give_no_text world_table p (file_a 1%Z)). }
  split; [reflexivity|].
  split; [apply H; [reflexivity|cbn; tauto]|].
  split; [apply H; [reflexivity|cbn; tauto]|].
  split; [apply H; [reflexivity|cbn; tauto]|].
  split; [reflexivity|apply H; [reflexivity|cbn; tauto]].
Defined.

(** X7. The ODT, Excel and PowerPoint readers give the text of their
    parser or nothing: when the parser raises, or its package is not
    installed, the placeholder is not produced and [open_file] returns
    [None]. *)
Theorem office_readers_text_or_nothing :
  forall w path,
    (dispatched_to w path h_read_odt ->
     open_file w path =
       as_optional (rbind (odt_texts (lib w) path)
                          (fun parts => Ok (String.concat " " parts)))) /\
    (dispatched_to w path h_read_excel ->
     open_file w path =
       if has_openpyxl (lib w) then as_optional (openpyxl_text (lib w) path)
       else Ok None) /\
    (dispatched_to w path h_read_powerpoint ->
     open_file w path =
       if has_pptx (lib w) then as_optional (pptx_text (lib w) path)
       else Ok None).
Proof.
  intros w path. split; [|split]; intros Hd;
    rewrite (open_file_dispatched _ _ _ Hd); cbn [call_handler].
  - unfold _read_odt. by destruct (odt_texts (lib w) path).
  - unfold _read_excel. destruct (has_openpyxl (lib w)); [|done].
    by destruct (openpyxl_text (lib w) path).
  - unfold _read_powerpoint. destruct (has_pptx (lib w)); [|done].
    by destruct (pptx_text (lib w) path).
Qed.

Lemma office_readers_text_or_nothing_witness :
  open_file world_table "/docs/sheet.xlsx" = Ok None /\
  open_file world_formats "/docs/sheet.xlsx" = Ok None.
Proof.
  assert (Hd : forall l, dispatched_to (with_lib world_formats l)
                           "/docs/sheet.xlsx" h_read_excel).
  { intros l. exists (file_a 1%Z).
    split; [reflexivity|]. split; [discriminate|]. split; [|reflexivity].
    unfold max_size. cbn. lia. }
  split.
  - exact (proj1 (proj2 (office_readers_text_or_nothing world_table
                           "/docs/sheet.xlsx")) (Hd table_lib)).
  - exact (proj1 (proj2 (office_readers_text_or_nothing
                           (with_lib world_formats sample_lib)
                           "/docs/sheet.xlsx")) (Hd sample_lib)).
Defined.

(** X8. [open_file] returns a text only for a regular file that is not
    above the size limit, and for an empty file the text is empty; a
    missing path, a directory and a file above the limit give [None]. *)
Theorem open_file_text_only_within_limit :
  forall w path text,
    open_file w path = Ok (Some text) ->
    exists f, fs w path = RegularFile f /\
              (st_size f <= 50 * 1024 * 1024)%Z /\
              (st_size f = 0%Z -> text = "").
Proof.
  intros w path text. unfold open_file.
  destruct (fs w path) as [| |f]; [done|done|].
  destruct (st_size f >? max_size)%Z eqn:Hmax; [done|].
  intros H. exists f. split; [done|]. split; [unfold max_size in Hmax; lia|].
  intros Hzero. rewrite Hzero in H. cbn in H. congruence.
Qed.

Lemma open_file_text_only_within_limit_witness :
  exists f, fs world_formats "/docs/README.TXT" = RegularFile f /\
            (st_size f <= 50 * 1024 * 1024)%Z /\
            (st_size f = 0%Z -> "a" = "").
Proof.
  apply (open_file_text_only_within_limit world_formats "/docs/README.TXT" "a").
  reflexivity.
Defined.

(** ** The indexing step *)

Lemma truthy_text_Some text t :
  truthy_text text = Some t <-> text = Some t /\ t <> "".
Proof.
  unfold truthy_text. destruct text as [t'|]; [|by split; [|intros []]].
  destruct (String.eqb t' "") eqn:He.
  - apply String.eqb_eq in He. subst. split; [done|]. by intros [[= <-] ?].
  - apply String.eqb_neq in He. split.
    + by intros [= <-].
    + by intros [[= <-] _].
Qed.

(** X9. [add_to_vector_db] returns [True] exactly when extraction gives a
    non-empty text, the service a non-empty vector for it, and the
    collection does not refuse the add.  It then has made one embedding
    call and one add call.  A path that was not in the index now has the
    entry with that text, itself as source and the vector in single
    precision; a path that was in the index keeps the entry it had, the
    add being ignored.  The entries of the other paths and all records
    are as before. *)
Theorem add_to_vector_db_true_iff :
  forall w path s,
    let r := add_to_vector_db w path s in
    (fst r = Ok true <->
     exists text values, embeddable w path text values /\
                         add_fails w path = false) /\
    (fst r = Ok true ->
     exists text values,
       embeddable w path text values /\
       calls (snd r) = (calls s ++ [EmbedContent text; CollectionAdd path])%list /\
       (collection s !! path = None ->
        collection (snd r) !! path =
          Some {| document := text; metadata_source := path;
                  embedding_values := map float32 values |}) /\
       (is_Some (collection s !! path) -> collection (snd r) = collection s) /\
       (forall q, q <> path -> collection (snd r) !! q = collection s !! q)) /\
    files (snd r) = files s.
Proof.
  intros w path s r. subst r. rewrite add_to_vector_db_unfold.
  destruct (open_file w path) as [text|e] eqn:Hopen.
  2: { cbn. split; [split; [done|]|split; [done|done]].
       intros (t & v & (Ho & _) & _). congruence. }
  destruct (truthy_text text) as [t|] eqn:Htruthy.
  2: { cbn. split; [split; [done|]|split; [done|done]].
       intros (t & v & (Ho & Hne & _) & _).
       assert (truthy_text (Some t) = Some t) by by apply truthy_text_Some.
       congruence. }
  apply truthy_text_Some in Htruthy as [-> Hne]. cbv zeta.
  destruct (embed_content w t) as [[|v vs]|e] eqn:Hembed.
  - cbn. split; [split; [done|]|split; [done|done]].
    intros (t' & v' & (Ho & _ & Hv & Hnil) & _). congruence.
  - destruct (add_fails w path) eqn:Hadd; cbn [fst snd files collection calls].
    + split; [split; [done|]|split; [done|done]].
      by intros (_ & _ & _ & ?).
    + split; [|split; [|done]].
      * split; [|done]. intros _. exists t, (v :: vs). by repeat split.
      * intros _. exists t, (v :: vs). split; [by repeat split|].
        split; [by rewrite <- app_assoc|].
        destruct (add_entry_cases path
                    {| document := t; metadata_source := path;
                       embedding_values := map float32 (v :: vs) |}
                    (collection s)) as [[Habs ->]|[Hpres ->]].
        -- split; [intros _; apply lookup_insert_eq|].
           split; [rewrite Habs; by intros [? ?]|].
           intros q Hq. by apply lookup_insert_ne.
        -- split; [intros Habs; rewrite Habs in Hpres; by destruct Hpres|].
           by split.
  - cbn. split; [split; [done|]|split; [done|done]].
    intros (t' & v' & (Ho & _ & Hv & _) & _). congruence.
Qed.

Lemma add_to_vector_db_true_iff_witness :
  fst (add_to_vector_db world_three_values "/watched/notes.txt" state_empty)
    = Ok true /\
  (exists text values,
     collection (snd (add_to_vector_db world_three_values "/watched/notes.txt"
                        state_empty)) !! "/watched/notes.txt"
       = Some {| document := text; metadata_source := "/watched/notes.txt";
                 embedding_values := map float32 values |}) /\
  collection (snd (add_to_vector_db world_three_values "/watched/notes.txt"
                     state_notes_indexed))
    = collection state_notes_indexed /\
  fst (add_to_vector_db world_down "/watched/notes.txt" state_empty) <> Ok true.
Proof.
  assert (Hok : forall s,
    fst (add_to_vector_db world_three_values "/watched/notes.txt" s) = Ok true).
  { intros s.
    apply (proj1 (add_to_vector_db_true_iff world_three_values
                    "/watched/notes.txt" s)).
    eexists "a", _. by repeat split. }
  split; [apply Hok|]. split; [|split].
  - destruct (proj1 (proj2 (add_to_vector_db_true_iff world_three_values
                              "/watched/notes.txt" state_empty)) (Hok _))
      as (text & values & _ & _ & Hnew & _).
    exists text, values. apply Hnew. reflexivity.
  - destruct (proj1 (proj2 (add_to_vector_db_true_iff world_three_values
                              "/watched/notes.txt" state_notes_indexed)) (Hok _))
      as (text & values & _ & _ & _ & Hkept & _).
    apply Hkept. eexists. by vm_compute.
  - intros H.
    apply (proj1 (add_to_vector_db_true_iff world_down "/watched/notes.txt"
                    state_empty)) in H.
    destruct H as (text & values & (Hopen & _ & Hembed & _) & _).
    discriminate Hembed.
Defined.



(** X11. Indexing a path and then deleting it from the index, in worlds
    that may differ, leaves the collection as it was without the path,
    whatever the indexing step did; a path that was not in the index
    before ends with the collection unchanged.  The records are not
    touched by either step. *)
Theorem index_then_delete_round_trip :
  forall w1 w2 path s,
    delete_fails w2 path = false ->
    let s2 := snd (delete_from_vector_db w2 path
                     (snd (add_to_vector_db w1 path s))) in
    collection s2 = delete path (collection s) /\
    (collection s !! path = None -> collection s2 = collection s) /\
    files s2 = files s.
Proof.
  intros w1 w2 path s Hdel s2. subst s2.
  rewrite delete_from_vector_db_unfold, Hdel. cbn [snd collection files].
  destruct (add_to_vector_db_cases w1 path s) as (Hfiles & Hcases).
  assert (Hcoll : delete path (collection (snd (add_to_vector_db w1 path s)))
                  = delete path (collection s)).
  { destruct Hcases as [[_ (t & v & _ & _ & _ & _ & _ & _ & Hc & _)]
                       |(_ & Hc & _)]; rewrite Hc; [|done].
    apply delete_add_entry. }
  split; [done|]. split; [|done].
  intros Habsent. rewrite Hcoll. by apply delete_id.
Qed.

Lemma index_then_delete_round_trip_witness :
  collection (snd (add_to_vector_db world_up "/watched/notes.txt" state_empty))
    !! "/watched/notes.txt" <> None /\
  collection (snd (delete_from_vector_db world_down "/watched/notes.txt"
                     (snd (add_to_vector_db world_up "/watched/notes.txt"
                             state_empty))))
    = collection state_empty.
Proof.
  split; [by vm_compute|].
  apply (index_then_delete_round_trip world_up world_down "/watched/notes.txt"
           state_empty eq_refl).
  reflexivity.
Defined.

(** ** The record store *)

(** X12. The table [files] behaves as a map keyed by path: a record that
    was upserted is what [get_file_record] returns, a second upsert for
    the path replaces the first, a deleted path reads as absent, the
    records of other paths are not affected by either, and reading
    changes nothing. *)
Theorem record_store_is_keyed_by_path :
  forall path m1 h1 m2 h2 s,
    let s1 := snd (upsert_file_record path m1 h1 s) in
    let s2 := snd (upsert_file_record path m2 h2 s1) in
    get_file_record path s1 = (Ok (Some (m1, h1)), s1) /\
    s2 = snd (upsert_file_record path m2 h2 s) /\
    fst (get_file_record path (snd (delete_file_record path s1))) = Ok None /\
    (files s !! path = None ->
     snd (delete_file_record path s1) = s) /\
    (forall q, q <> path ->
       fst (get_file_record q s1) = fst (get_file_record q s) /\
       fst (get_file_record q (snd (delete_file_record path s)))
         = fst (get_file_record q s)).
Proof.
  intros path m1 h1 m2 h2 s s1 s2. subst s1 s2.
  unfold get_file_record, upsert_file_record, delete_file_record.
  cbn [fst snd files collection calls].
  split; [by rewrite lookup_insert_eq|].
  split; [by rewrite insert_insert_eq|].
  split; [by rewrite lookup_delete_eq|].
  split.
  - intros Habsent. rewrite delete_insert_eq, (delete_id _ _ Habsent).
    by destruct s.
  - intros q Hq. by rewrite lookup_insert_ne, lookup_delete_ne.
Qed.

Lemma record_store_is_keyed_by_path_witness :
  snd (delete_file_record "/watched/notes.txt"
         (snd (upsert_file_record "/watched/notes.txt" 1%Z "h" state_empty)))
    = state_empty.
Proof.
  apply (proj1 (proj2 (proj2 (proj2
           (record_store_is_keyed_by_path "/watched/notes.txt" 1%Z "h" 2%Z "g"
              state_empty))))).
  reflexivity.
Defined.

(** ** The callbacks *)

Lemma process_effect w path event_type s :
  process w path event_type s = (Ok tt, s) \/
  exists f h,
    fs w path = RegularFile f /\ compute_file_hash w path = Some h /\
    stale s path h /\
    process w path event_type s =
      bind (add_to_vector_db w path) (fun _ => ret tt)
           (record_written path (st_mtime f) h s).
Proof.
  destruct (compute_file_hash w path) as [h|] eqn:Hh.
  2: { left. by apply process_unhashable. }
  destruct (compute_file_hash_Some _ _ _ Hh) as [f Hf].
  destruct (stale_cases s path h) as [Hstale|[lm Hrec]].
  - right. exists f, h. split; [done|]. split; [done|]. split; [done|].
    by apply process_changed.
  - left. by apply (process_unchanged _ _ _ _ h lm).
Qed.

Lemma on_moved_unfold w ev s :
  is_directory ev = false ->
  on_moved w ev s
    = process w (dest_path ev) "moved" (source_removed w (src_path ev) s).
Proof.
  intros Hdir. unfold on_moved, source_removed, bind, delete_file_record.
  rewrite Hdir. cbn [negb snd].
  by rewrite !delete_from_vector_db_unfold.
Qed.

Lemma on_deleted_unfold w ev s :
  is_directory ev = false ->
  on_deleted w ev s
    = (Ok tt, source_removed w (src_path ev) s).
Proof.
  intros Hdir. unfold on_deleted, source_removed, bind, delete_file_record.
  rewrite Hdir. cbn [negb snd].
  by rewrite !delete_from_vector_db_unfold.
Qed.





Lemma source_removed_lookup w src s q :
  files (source_removed w src s) !! q
    = (if decide (src = q) then None else files s !! q) /\
  (q <> src ->
   collection (source_removed w src s) !! q = collection s !! q) /\
  (delete_fails w src = false ->
   collection (source_removed w src s) = delete src (collection s)).
Proof.
  unfold source_removed. rewrite delete_from_vector_db_unfold.
  unfold delete_file_record. cbn [snd files collection].
  split; [apply lookup_delete|]. split.
  - intros Hq. destruct (delete_fails w src); [done|].
    by apply lookup_delete_ne.
  - by intros ->.
Qed.

(** X14. A callback writes at the paths of its event only: the record
    and the index entry of every path other than the source (and, for a
    Moved event, the destination) are the same before and after, whether
    the callback returns or raises.  For a directory event the callback
    returns at once and nothing changes: no record, no entry, no call. *)
Theorem callbacks_touch_only_their_paths :
  forall w c ev s,
    (forall q,
       q <> src_path ev ->
       (c = Moved -> q <> dest_path ev) ->
       files (snd (handle w c ev s)) !! q = files s !! q /\
       collection (snd (handle w c ev s)) !! q = collection s !! q) /\
    (is_directory ev = true -> handle w c ev s = (Ok tt, s)).
Proof.
  intros w c ev s.
  assert (Hquiet : is_directory ev = true -> handle w c ev s = (Ok tt, s)).
  { intros Hdir.
    destruct c; cbn [handle]; unfold on_created, on_modified, on_deleted,
      on_moved; by rewrite Hdir. }
  split; [|done]. intros q Hsrc Hdest.
  destruct (is_directory ev) eqn:Hdir.
  { by rewrite Hquiet. }
  destruct c; cbn [handle].
  - unfold on_created. rewrite Hdir. by apply process_other_paths.
  - unfold on_modified. rewrite Hdir. by apply process_other_paths.
  - rewrite on_deleted_unfold by done. cbn [snd].
    destruct (source_removed_lookup w (src_path ev) s q) as (Hf & Hc & _).
    rewrite Hf, Hc by done. by destruct (decide (src_path ev = q)).
  - rewrite on_moved_unfold by done.
    destruct (process_other_paths w (dest_path ev) "moved"
                (source_removed w (src_path ev) s) q (Hdest eq_refl))
      as [-> ->].
    destruct (source_removed_lookup w (src_path ev) s q) as (Hf & Hc & _).
    rewrite Hf, Hc by done. by destruct (decide (src_path ev = q)).
Qed.

Lemma callbacks_touch_only_their_paths_witness :
  (files (snd (handle world_up Moved notes_to_copy state_notes_indexed))
     !! "/watched/other.txt"
     = files state_notes_indexed !! "/watched/other.txt" /\
   collection (snd (handle world_up Moved notes_to_copy state_notes_indexed))
     !! "/watched/other.txt"
     = collection state_notes_indexed !! "/watched/other.txt") /\
  handle world_up Moved sub_event state_notes_indexed
    = (Ok tt, state_notes_indexed) /\
  handle world_up Deleted sub_event state_notes_indexed
    = (Ok tt, state_notes_indexed).
Proof.
  split; [|split].
  - apply (proj1 (callbacks_touch_only_their_paths world_up Moved notes_to_copy
                    state_notes_indexed) "/watched/other.txt").
    + discriminate.
    + intros _. discriminate.
  - apply (proj2 (callbacks_touch_only_their_paths world_up Moved sub_event
                    state_notes_indexed)).
    reflexivity.
  - apply (proj2 (callbacks_touch_only_their_paths world_up Deleted sub_event
                    state_notes_indexed)).
    reflexivity.
Defined.

Lemma process_stores w path event_type s :
  let s' := snd (process w path event_type s) in
  (files s' = files s \/
   exists f h, fs w path = RegularFile f /\ compute_file_hash w path = Some h /\
               files s' = <[path := (st_mtime f, h)]> (files s)) /\
  (collection s' = collection s \/
   exists text values,
     text <> "" /\ values <> [] /\ is_Some (files s' !! path) /\
     collection s !! path = None /\
     collection s' =
       <[path := {| document := text; metadata_source := path;
                    embedding_values := values |}]> (collection s)).
Proof.
  cbv zeta.
  destruct (process_effect w path event_type s)
    as [->|(f & h & Hf & Hh & _ & ->)]; [by split; left|].
  rewrite bind_ret_tt. cbn [snd].
  destruct (add_to_vector_db_cases w path (record_written path (st_mtime f) h s))
    as (Hfiles & Hcases).
  split.
  - right. exists f, h. by rewrite Hfiles.
  - destruct Hcases as [[_ (t & v & _ & Ht & _ & Hv & _ & _ & Hc & _)]
                       |(_ & Hc & _)]; [|by left].
    rewrite Hc. cbn [record_written collection].
    destruct (add_entry_cases path
                {| document := t; metadata_source := path;
                   embedding_values := map float32 v |} (collection s))
      as [[Habs ->]|[_ ->]]; [right|by left].
    exists t, (map float32 v). split; [done|].
    split; [by destruct v|]. split; [|done].
    rewrite Hfiles. cbn [record_written files]. rewrite lookup_insert_eq.
    by eexists.
Qed.

(** X15. A Created event followed by a Deleted event for the same path,
    the file system and the services being whatever they are at each of
    the two, puts both stores back as they were when the path was in
    neither before and the collection takes the delete. *)
Theorem created_then_deleted_restores_stores :
  forall w1 w2 ev s,
    files s !! src_path ev = None ->
    collection s !! src_path ev = None ->
    delete_fails w2 (src_path ev) = false ->
    let s2 := snd (on_deleted w2 ev (snd (on_created w1 ev s))) in
    files s2 = files s /\ collection s2 = collection s.
Proof.
  intros w1 w2 ev s Hrec Hidx Hdel s2. subst s2.
  destruct (is_directory ev) eqn:Hdir.
  { unfold on_created, on_deleted. by rewrite Hdir. }
  rewrite on_deleted_unfold by done. cbn [snd].
  unfold on_created. rewrite Hdir. cbn [negb].
  destruct (process_stores w1 (src_path ev) "created" s) as (Hf & Hc).
  unfold source_removed. rewrite delete_from_vector_db_unfold, Hdel.
  unfold delete_file_record. cbn [snd files collection].
  split.
  - destruct Hf as [->|(f & h & _ & _ & ->)].
    + by apply delete_id.
    + rewrite delete_insert_eq. by apply delete_id.
  - destruct Hc as [->|(t & v & _ & _ & _ & _ & ->)].
    + by apply delete_id.
    + rewrite delete_insert_eq. by apply delete_id.
Qed.

Lemma created_then_deleted_restores_stores_witness :
  files state_notes_indexed !! "/watched/notes.txt" <> None /\
  collection state_notes_indexed !! "/watched/notes.txt" <> None /\
  files (snd (on_deleted world_down notes_event state_notes_indexed)) = ∅ /\
  collection (snd (on_deleted world_down notes_event state_notes_indexed)) = ∅.
Proof.
  split; [by vm_compute|]. split; [by vm_compute|].
  apply (created_then_deleted_restores_stores world_up world_down notes_event
           state_empty); reflexivity.
Defined.

(** ** Invariants of event streams *)

Lemma run_events_invariant (P : state -> Prop) (ok : delivery -> Prop) :
  (forall d s, ok d -> P s ->
     P (snd (handle (at_world d) (kind d) (payload d) s))) ->
  forall l s, Forall ok l -> P s -> P (run_events l s).
Proof.
  intros Hstep l. induction l as [|d l IH]; intros s Hok HP; [done|].
  inversion Hok as [|? ? Hd Hl]; subst. cbn [run_events].
  apply IH; [done|]. by apply Hstep.
Qed.

Lemma compute_file_hash_length w path h :
  compute_file_hash w path = Some h -> String.length h = 32.
Proof.
  unfold compute_file_hash. destruct (hash_stream w path) as [hs|e]; [|done].
  intros [= <-]. apply hexdigest_length.
Qed.

Lemma source_removed_stores w src s :
  files (source_removed w src s) = delete src (files s) /\
  (collection (source_removed w src s) = collection s \/
   collection (source_removed w src s) = delete src (collection s)) /\
  (delete_fails w src = false ->
   collection (source_removed w src s) = delete src (collection s)).
Proof.
  unfold source_removed. rewrite delete_from_vector_db_unfold.
  unfold delete_file_record. cbn [snd files collection].
  split; [done|]. split.
  - destruct (delete_fails w src); [by left|by right].
  - by intros ->.
Qed.

(** The stores after a callback, in terms of the two steps. *)
Lemma handle_steps w c ev s :
  snd (handle w c ev s) = s \/
  (exists et, snd (handle w c ev s) = snd (process w (src_path ev) et s)) \/
  snd (handle w c ev s) = source_removed w (src_path ev) s \/
  snd (handle w c ev s)
    = snd (process w (dest_path ev) "moved" (source_removed w (src_path ev) s)).
Proof.
  destruct (is_directory ev) eqn:Hdir.
  { left. destruct c; cbn [handle]; unfold on_created, on_modified, on_deleted,
      on_moved; by rewrite Hdir. }
  destruct c; cbn [handle].
  - right; left. exists "created". unfold on_created. by rewrite Hdir.
  - right; left. exists "modified". unfold on_modified. by rewrite Hdir.
  - right; right; left. by rewrite on_deleted_unfold.
  - right; right; right. by rewrite on_moved_unfold.
Qed.

Lemma process_entries_well_formed w path event_type s :
  entries_well_formed s ->
  entries_well_formed (snd (process w path event_type s)).
Proof.
  intros Hwf p e. destruct (process_stores w path event_type s) as (_ & Hc).
  destruct Hc as [->|(t & v & Ht & Hv & _ & _ & ->)]; [apply Hwf|].
  destruct (decide (p = path)) as [->|Hne].
  - rewrite lookup_insert_eq. by intros [= <-].
  - rewrite lookup_insert_ne by done. apply Hwf.
Qed.

Lemma source_removed_entries_well_formed w src s :
  entries_well_formed s -> entries_well_formed (source_removed w src s).
Proof.
  intros Hwf p e. destruct (source_removed_stores w src s) as (_ & [-> | ->] & _).
  - apply Hwf.
  - intros [_ He]%lookup_delete_Some. by apply Hwf.
Qed.

(** X16. In every state reached by a stream of events from a state with
    well-formed entries, each index entry is stored under the path it
    names as its source and holds a non-empty text and a non-empty
    vector, whatever the worlds of the events are. *)
Theorem entries_stay_well_formed :
  forall l s,
    entries_well_formed s -> entries_well_formed (run_events l s).
Proof.
  intros l s Hwf.
  apply (run_events_invariant entries_well_formed (fun _ => True));
    [|by apply Forall_true|done].
  intros d s0 _ Hs0.
  destruct (handle_steps (at_world d) (kind d) (payload d) s0)
    as [-> | [[et ->] | [-> | ->]]].
  - done.
  - by apply process_entries_well_formed.
  - by apply source_removed_entries_well_formed.
  - by apply process_entries_well_formed, source_removed_entries_well_formed.
Qed.

Lemma entries_stay_well_formed_witness :
  entries_well_formed
    (run_events [ {| at_world := world_up; kind := Created;
                     payload := notes_event |};
                  {| at_world := world_down; kind := Moved;
                     payload := notes_to_copy |} ] state_empty).
Proof.
  apply entries_stay_well_formed. intros p e.
  unfold state_empty. cbn [collection]. by rewrite lookup_empty.
Defined.

Lemma process_hashes_well_formed w path event_type s :
  hashes_well_formed s ->
  hashes_well_formed (snd (process w path event_type s)).
Proof.
  intros Hwf p m h. destruct (process_stores w path event_type s) as (Hf & _).
  destruct Hf as [->|(f & h' & _ & Hh & ->)]; [apply Hwf|].
  destruct (decide (p = path)) as [->|Hne].
  - rewrite lookup_insert_eq. intros [= <- <-].
    by eapply compute_file_hash_length.
  - rewrite lookup_insert_ne by done. apply Hwf.
Qed.

Lemma source_removed_hashes_well_formed w src s :
  hashes_well_formed s -> hashes_well_formed (source_removed w src s).
Proof.
  intros Hwf p m h. rewrite (proj1 (source_removed_stores w src s)).
  intros [_ He]%lookup_delete_Some. by eapply Hwf.
Qed.

(** X17. In every state reached by a stream of events from a state whose
    hashes are 32 characters long, every stored hash is 32 characters
    long: records are only ever written with a digest that
    [compute_file_hash] returned. *)
Theorem stored_hashes_stay_digests :
  forall l s,
    hashes_well_formed s -> hashes_well_formed (run_events l s).
Proof.
  intros l s Hwf.
  apply (run_events_invariant hashes_well_formed (fun _ => True));
    [|by apply Forall_true|done].
  intros d s0 _ Hs0.
  destruct (handle_steps (at_world d) (kind d) (payload d) s0)
    as [-> | [[et ->] | [-> | ->]]].
  - done.
  - by apply process_hashes_well_formed.
  - by apply source_removed_hashes_well_formed.
  - by apply process_hashes_well_formed, source_removed_hashes_well_formed.
Qed.

Lemma stored_hashes_stay_digests_witness :
  hashes_well_formed
    (run_events [ {| at_world := world_down; kind := Created;
                     payload := notes_event |};
                  {| at_world := world_up; kind := Modified;
                     payload := empty_event |} ] state_empty).
Proof.
  apply stored_hashes_stay_digests. intros p m h.
  unfold state_empty. cbn [files]. by rewrite lookup_empty.
Defined.

Lemma process_index_within_records w path event_type s :
  index_within_records s ->
  index_within_records (snd (process w path event_type s)).
Proof.
  intros Hinv p.
  destruct (decide (p = path)) as [->|Hne].
  - destruct (process_stores w path event_type s) as (Hf & Hc).
    destruct Hc as [->|(t & v & _ & _ & Hrec & _)]; [|done].
    intros Hidx. specialize (Hinv _ Hidx).
    destruct Hf as [->|(f & h & _ & _ & ->)]; [done|].
    rewrite lookup_insert_eq. by eexists.
  - destruct (process_other_paths w path event_type s p Hne) as [-> ->].
    apply Hinv.
Qed.

Lemma source_removed_index_within_records w src s :
  delete_fails w src = false ->
  index_within_records s -> index_within_records (source_removed w src s).
Proof.
  intros Hdel Hinv p.
  destruct (source_removed_stores w src s) as (-> & _ & Hc).
  rewrite (Hc Hdel).
  intros [e [Hne He]%lookup_delete_Some].
  destruct (Hinv p) as [r Hr]; [by eexists|].
  exists r. by apply lookup_delete_Some.
Qed.

(** X18. As long as the collection takes the deletes, every path in the
    index has a record: the property holds in every state reached by a
    stream of events from a state where it holds. *)
Theorem index_stays_within_records :
  forall l s,
    deletes_succeed l ->
    index_within_records s ->
    index_within_records (run_events l s).
Proof.
  intros l s Hdel Hinv.
  apply (run_events_invariant index_within_records
           (fun d => forall p, delete_fails (at_world d) p = false));
    [|done|done].
  intros d s0 Hd Hs0.
  destruct (handle_steps (at_world d) (kind d) (payload d) s0)
    as [-> | [[et ->] | [-> | ->]]].
  - done.
  - by apply process_index_within_records.
  - by apply source_removed_index_within_records.
  - by apply process_index_within_records, source_removed_index_within_records.
Qed.

Lemma index_stays_within_records_witness :
  index_within_records
    (run_events [ {| at_world := world_up; kind := Created;
                     payload := notes_event |};
                  {| at_world := world_down; kind := Moved;
                     payload := notes_to_copy |};
                  {| at_world := world_up; kind := Deleted;
                     payload := notes_event |} ] state_empty).
Proof.
  apply index_stays_within_records.
  - repeat constructor.
  - intros p. unfold state_empty. cbn [collection].
    rewrite lookup_empty. by intros [e ?].
Defined.

(** ** Calls to the services *)

Lemma add_to_vector_db_budget w path s :
  within_budget s (snd (add_to_vector_db w path s)).
Proof.
  unfold within_budget, embed_calls, add_calls, delete_calls.
  rewrite add_to_vector_db_unfold.
  destruct (open_file w path) as [text|e]; [|cbn; lia].
  destruct (truthy_text text) as [t|]; [|cbn; lia]. cbv zeta.
  destruct (embed_content w t) as [[|v vs]|e]; cbn [snd calls];
    [rewrite !count_calls_app; cbn; lia| |rewrite !count_calls_app; cbn; lia].
  destruct (add_fails w path); cbn [snd calls];
    rewrite !count_calls_app; cbn; lia.
Qed.

Lemma process_budget w path event_type s :
  within_budget s (snd (process w path event_type s)).
Proof.
  destruct (process_effect w path event_type s)
    as [->|(f & h & _ & _ & _ & ->)].
  - unfold within_budget. cbn. lia.
  - rewrite bind_ret_tt. cbn [snd].
    apply (add_to_vector_db_budget w path (record_written path (st_mtime f) h s)).
Qed.

Lemma source_removed_calls w src s :
  embed_calls (source_removed w src s) = embed_calls s /\
  add_calls (source_removed w src s) = add_calls s /\
  delete_calls (source_removed w src s) = delete_calls s + 1.
Proof.
  unfold embed_calls, add_calls, delete_calls, source_removed.
  rewrite delete_from_vector_db_unfold. unfold delete_file_record.
  cbn [snd calls]. rewrite !count_calls_app. cbn. lia.
Qed.

(** X19. Over any stream of events the engine makes at most one embedding
    call per Created, Modified or Moved event and none for a Deleted
    event, never more add calls than embedding calls, and at most one
    delete call per event. *)
Theorem calls_bounded_by_events :
  forall l s,
    embed_calls s <= embed_calls (run_events l s)
      <= embed_calls s + indexing_events l /\
    add_calls (run_events l s) + embed_calls s
      <= add_calls s + embed_calls (run_events l s) /\
    delete_calls s <= delete_calls (run_events l s)
      <= delete_calls s + length l.
Proof.
  induction l as [|d l IH]; intros s; cbn [run_events indexing_events length];
    [lia|].
  set (s1 := snd (handle (at_world d) (kind d) (payload d) s)).
  assert (Hstep :
    embed_calls s <= embed_calls s1
      <= embed_calls s + match kind d with Deleted => 0 | _ => 1 end /\
    add_calls s1 + embed_calls s <= add_calls s + embed_calls s1 /\
    delete_calls s <= delete_calls s1 <= delete_calls s + 1).
  { subst s1. destruct d as [w c ev]. cbn [at_world kind payload].
    destruct (is_directory ev) eqn:Hdir.
    { destruct c; cbn [handle]; unfold on_created, on_modified, on_deleted,
        on_moved; rewrite Hdir; cbn; lia. }
    destruct c; cbn [handle].
    - unfold on_created. rewrite Hdir. cbn [negb].
      destruct (process_budget w (src_path ev) "created" s) as (? & ? & ? & ?).
      lia.
    - unfold on_modified. rewrite Hdir. cbn [negb].
      destruct (process_budget w (src_path ev) "modified" s) as (? & ? & ? & ?).
      lia.
    - rewrite on_deleted_unfold by done. cbn [snd].
      destruct (source_removed_calls w (src_path ev) s) as (? & ? & ?).
      lia.
    - rewrite on_moved_unfold by done.
      destruct (source_removed_calls w (src_path ev) s) as (? & ? & ?).
      destruct (process_budget w (dest_path ev) "moved"
                  (source_removed w (src_path ev) s)) as (? & ? & ? & ?).
      lia. }
  specialize (IH s1). lia.
Qed.

(** ** Moves, again *)

(** X20. A Moved file event is a Deleted event for the source followed by
    a Created event for the destination: the same outcome and the same
    state.  So a destination that has no record is indexed anew: when it
    can be hashed and embedded, the move costs one embedding call,
    whether or not the same bytes were indexed under the old path. *)
Theorem move_is_delete_then_create :
  forall w ev s,
    is_directory ev = false ->
    on_moved w ev s
      = on_created w (file_event (dest_path ev)) (snd (on_deleted w ev s)) /\
    (files s !! dest_path ev = None ->
     (exists h, compute_file_hash w (dest_path ev) = Some h) ->
     (exists text values, embeddable w (dest_path ev) text values) ->
     embed_calls (snd (on_moved w ev s)) = embed_calls s + 1).
Proof.
  intros w ev s Hdir.
  assert (Hseq : on_moved w ev s
            = on_created w (file_event (dest_path ev)) (snd (on_deleted w ev s))).
  { rewrite on_moved_unfold, on_deleted_unfold by done. reflexivity. }
  split; [done|].
  intros Hrec [h Hh] (text & values & Hopen & Htext & Hembed & Hvalues).
  rewrite on_moved_unfold by done.
  destruct (compute_file_hash_Some _ _ _ Hh) as [f Hf].
  rewrite (process_changed w _ _ _ f h Hf Hh), bind_ret_tt.
  2: { unfold stale. rewrite (proj1 (source_removed_stores _ _ _)).
       destruct (delete (src_path ev) (files s) !! dest_path ev)
         as [[m lh]|] eqn:Hl; [|done].
       apply lookup_delete_Some in Hl as [_ Hl]. congruence. }
  cbn [snd]. rewrite add_to_vector_db_unfold, Hopen.
  assert (truthy_text (Some text) = Some text) as ->
    by by apply truthy_text_Some.
  cbv zeta. rewrite Hembed.
  destruct values as [|v vs]; [done|].
  unfold embed_calls, source_removed.
  destruct (add_fails w (dest_path ev)); cbn [snd calls record_written];
    rewrite delete_from_vector_db_unfold; unfold delete_file_record;
    cbn [snd calls]; rewrite !count_calls_app; cbn; lia.
Qed.

Lemma move_is_delete_then_create_witness :
  tracked state_notes_indexed "/watched/notes.txt"
          "0cc175b9c0f1b6a831c399e269772661" /\
  compute_file_hash world_up "/watched/copy.txt"
    = Some "0cc175b9c0f1b6a831c399e269772661" /\
  embed_calls (snd (on_moved world_up notes_to_copy state_notes_indexed))
    = embed_calls state_notes_indexed + 1.
Proof.
  split; [exists 100%Z; by vm_compute|]. split; [by vm_compute|].
  apply (proj2 (move_is_delete_then_create world_up notes_to_copy
                  state_notes_indexed eq_refl)).
  - by vm_compute.
  - eexists. by vm_compute.
  - exists "a", [1%Z]. by repeat split.
Defined.

(** ** When a file has a hash *)

Lemma read_loop_fault_beyond size fault k rest h j :
  0 < size -> fault = Some j -> k <= j ->
  ~ fault_reached size (j - k) (length rest) ->
  read_loop size fault k rest h = Ok (h ++ rest)%list.
Proof.
  intros Hsize Hf Hk Hr. funelim (read_loop size fault k rest h).
  - exfalso. apply Hr. left. injection e as ->. lia.
  - destruct size; [lia|]. destruct rest; [|discriminate].
    by rewrite app_nil_r.
  - assert (j ≠ k) by congruence.
    rewrite (H j); [| done | done | lia |].
    + unfold hasher_update. rewrite <- app_assoc, <- E. by rewrite firstn_skipn.
    + intros Hreach. apply Hr. right.
      assert (length rest <> 0) by (destruct rest; [by destruct size|done]).
      destruct (decide (j - S k = 0)) as [Hz|Hnz].
      * replace (j - k - 1) with 0 by lia. lia.
      * destruct Hreach as [?|Hlt]; [done|].
        rewrite length_skipn in Hlt.
        replace (j - k - 1) with (S (j - S k - 1)) by lia.
        rewrite Nat.mul_succ_l.
        generalize dependent ((j - S k - 1) * size). intros x Hlt. lia.
Qed.

Lemma fault_reached_dec size j len :
  fault_reached size j len \/ ~ fault_reached size j len.
Proof.
  unfold fault_reached.
  destruct (decide (j = 0)) as [|Hj]; [by left; left|].
  destruct (decide ((j - 1) * size < len)) as [|Hlt]; [by left; right|].
  right. by intros [?|?].
Qed.

(** X21. [compute_file_hash] returns [None] exactly for a path that is
    missing, a directory, a file that cannot be opened, or a file one of
    whose reads fails before the loop is over; in every other case it
    returns the MD5 of all the bytes of the file, also when a read would
    fail after the end of the file was seen. *)
Theorem hash_is_none_iff_unreadable :
  forall w path,
    (compute_file_hash w path = None <-> unreadable w path) /\
    (~ unreadable w path ->
     exists f, fs w path = RegularFile f /\
               compute_file_hash w path = Some (Md5.hexdigest (data f))).
Proof.
  intros w path.
  assert (Hsome : ~ unreadable w path ->
            exists f, fs w path = RegularFile f /\
                      compute_file_hash w path = Some (Md5.hexdigest (data f))).
  { unfold unreadable, compute_file_hash, hash_stream.
    destruct (fs w path) as [| |f]; [by intros []|by intros []|].
    intros Hnot. exists f. split; [done|].
    destruct (can_open f); [|by destruct Hnot; left].
    destruct (read_fault f) as [j|] eqn:Hfault.
    - rewrite (read_loop_fault_beyond _ _ _ _ _ j chunk_size_pos eq_refl);
        [done|lia|].
      rewrite Nat.sub_0_r. intros Hreach. apply Hnot. right. by exists j.
    - by rewrite (read_loop_no_fault _ _ _ _ _ chunk_size_pos eq_refl). }
  split; [|done]. split; [|apply compute_file_hash_unreadable].
  intros Hnone.
  assert (Hdec : unreadable w path \/ ~ unreadable w path).
  { unfold unreadable. destruct (fs w path) as [| |f]; [by left|by left|].
    destruct (can_open f); [|by left; left].
    destruct (read_fault f) as [j|].
    - destruct (fault_reached_dec chunk_size j (length (data f))) as [Hr|Hr].
      + left. right. by exists j.
      + right. intros [?|(j' & [= <-] & ?)]; [done|]. by apply Hr.
    - right. by intros [?|(j' & ? & _)]. }
  destruct Hdec as [|Hnot]; [done|].
  destruct (Hsome Hnot) as (f & _ & Hh). congruence.
Qed.

Lemma hash_is_none_iff_unreadable_witness :
  exists f, fs world_late_fault "/any" = RegularFile f /\
            compute_file_hash world_late_fault "/any"
              = Some (Md5.hexdigest (data f)).
Proof.
  apply (proj2 (hash_is_none_iff_unreadable world_late_fault "/any")).
  unfold unreadable. cbn [fs world_late_fault file_late_fault can_open
                           read_fault data length].
  intros [H|(j & [= <-] & [H|H])]; [discriminate|discriminate|].
  change (2 - 1) with 1 in H. rewrite Nat.mul_1_l in H.
  pose proof chunk_size_pos. lia.
Defined.

(** ** No retry *)

(** X22. Once a Created event has been processed for a file that can be
    hashed, a later Created or Modified event for the same path is
    skipped as long as the file hashes to the same value, whatever
    happened to indexing the first time and whatever the services do
    later: a path whose indexing failed stays out of the index until its
    content changes. *)
Theorem failed_indexing_is_not_retried :
  forall w1 w2 ev s h,
    is_directory ev = false ->
    compute_file_hash w1 (src_path ev) = Some h ->
    compute_file_hash w2 (src_path ev) = Some h ->
    let s1 := snd (on_created w1 ev s) in
    on_created w2 ev s1 = (Ok tt, s1) /\
    on_modified w2 ev s1 = (Ok tt, s1) /\
    (index_mutation_fails w1 (src_path ev) ->
     collection s !! src_path ev = None ->
     collection (snd (on_modified w2 ev s1)) !! src_path ev = None).
Proof.
  intros w1 w2 ev s h Hdir Hh1 Hh2 s1. subst s1.
  unfold on_created, on_modified. rewrite Hdir. cbn [negb].
  destruct (process_tracks w1 (src_path ev) "created" s h Hh1) as [m Hm].
  assert (Hskip : forall et,
    process w2 (src_path ev) et (snd (process w1 (src_path ev) "created" s))
      = (Ok tt, snd (process w1 (src_path ev) "created" s))).
  { intros et. by apply (process_unchanged _ _ _ _ h m). }
  split; [apply Hskip|]. split; [apply Hskip|].
  intros Hfail Habsent. rewrite Hskip. cbn [snd].
  destruct (process_effect w1 (src_path ev) "created" s)
    as [->|(f & h' & _ & _ & _ & ->)]; [done|].
  rewrite bind_ret_tt. cbn [snd].
  destruct (add_to_vector_db_cases w1 (src_path ev)
              (record_written (src_path ev) (st_mtime f) h' s))
    as (_ & [[Hok _]|(_ & -> & _)]); [|done].
  by destruct (Hfail _ Hok).
Qed.

Lemma failed_indexing_is_not_retried_witness :
  on_modified world_up notes_event
              (snd (on_created world_down notes_event state_empty))
    = (Ok tt, snd (on_created world_down notes_event state_empty)) /\
  collection (snd (on_modified world_up notes_event
                     (snd (on_created world_down notes_event state_empty))))
    !! "/watched/notes.txt" = None.
Proof.
  destruct (failed_indexing_is_not_retried world_down world_up notes_event
              state_empty "0cc175b9c0f1b6a831c399e269772661")
    as (_ & Hskip & Hout).
  - reflexivity.
  - by vm_compute.
  - by vm_compute.
  - split; [exact Hskip|]. apply Hout; [|reflexivity].
    intros s. rewrite add_to_vector_db_unfold. cbn. discriminate.
Defined.
